(** * audioserve-web service worker: cache controllers

    A shallow embedding of the service-worker cache module of
    audioserve-web (the file with [buildResponse], [evictCache],
    [AudioCache] and [NetworkFirstCache]) and the properties of its
    request queue, range builder, eviction policy and two controllers.

    Modelling conventions.
    - JavaScript numbers that hold byte offsets, sizes and counts are
      integers of [Z].  The model is exact for the safe integers, up to
      [Js.MAX_SAFE_INTEGER]; beyond them JavaScript rounds to the nearest
      double, which the model does not follow, so every statement that reads
      a value or a header text off a number carries that bound.
    - A [Blob] is the list of its bytes; a [Headers] object is an association
      list whose names compare without regard to case.
    - A promise chain is a computation in the monad [M]: it threads the
      controller's [State] and settles as [Fulfilled] or [Rejected].  A chain
      is run to completion in isolation; what the platform decides (the
      network, the cache storage) is read from an [Env].
    - An [AbortController] is identified by a number; calling [abort()] on it
      is recorded in the state. *)

From Stdlib Require Import ZArith List Bool Ascii String Lia.
From Stdlib Require Import Decimal DecimalString DecimalPos DecimalZ.
From Stdlib.Strings Require Import Byte.
Import ListNotations.

Local Open Scope string_scope.
Local Open Scope Z_scope.

(* ================================================================== *)
(** ** JavaScript values used by the module *)

Module Js.

(** [Number.MAX_SAFE_INTEGER], [2^53 - 1]: up to it every integer is a
    JavaScript number, and is the number its decimal digits spell. *)
Definition MAX_SAFE_INTEGER : Z := 9007199254740991.

(** [String(n)] and [`${n}`] for an integer number [n] with
    [|n| <= MAX_SAFE_INTEGER]: its decimal digits.  (Beyond the bound the
    code prints the rounded value, in exponent notation from [1e21].) *)
Definition String_of_number (n : Z) : string :=
  NilZero.string_of_int (Z.to_int n).

(** The class [\d] of a regular expression. *)
Definition is_digit (c : ascii) : bool :=
  ((48 <=? nat_of_ascii c)%nat && (nat_of_ascii c <=? 57)%nat)%bool.

(** [Number(s)] where [s] was matched by [\d+] and spells a number up to
    [MAX_SAFE_INTEGER].  (Beyond the bound the code rounds to the nearest
    double.) *)
Definition Number_of_digits (s : string) : Z :=
  match NilEmpty.uint_of_string s with
  | Some u => Z.of_uint u
  | None => 0
  end.

(** The longest run of digits at the head of [s], and what follows it:
    a greedy [\d+] or [\d*]. *)
Fixpoint span_digits (s : string) : string * string :=
  match s with
  | EmptyString => (EmptyString, EmptyString)
  | String c r =>
      if is_digit c
      then let (d, rest) := span_digits r in (String c d, rest)
      else (EmptyString, s)
  end.

Fixpoint strip_prefix (p s : string) : option string :=
  match p with
  | EmptyString => Some s
  | String a p' =>
      match s with
      | EmptyString => None
      | String b s' => if Ascii.eqb a b then strip_prefix p' s' else None
      end
  end.

Definition is_empty (s : string) : bool :=
  match s with EmptyString => true | _ => false end.

(** Truthiness of a string-or-null, a number-or-undefined and a
    boolean-or-undefined. *)
Definition truthy_string (o : option string) : bool :=
  match o with Some s => negb (is_empty s) | None => false end.

Definition truthy_number (o : option Z) : bool :=
  match o with Some n => negb (n =? 0) | None => false end.

Definition truthy_bool (o : option bool) : bool :=
  match o with Some b => b | None => false end.

(** Conversion of a string-or-null to a string, as done for a header value. *)
Definition String_of_nullable (o : option string) : string :=
  match o with Some s => s | None => "null" end.

Definition to_lower (c : ascii) : ascii :=
  let n := nat_of_ascii c in
  if ((65 <=? n)%nat && (n <=? 90)%nat)%bool then ascii_of_nat (n + 32) else c.

Fixpoint lowercase (s : string) : string :=
  match s with
  | EmptyString => EmptyString
  | String c r => String (to_lower c) (lowercase r)
  end.

(** [Array.prototype.findIndex]: the first index whose element satisfies
    [p], or [-1]. *)
Fixpoint findIndex {A : Type} (p : A -> bool) (l : list A) : Z :=
  match l with
  | [] => -1
  | x :: r =>
      if p x then 0
      else let i := findIndex p r in if i <? 0 then -1 else i + 1
  end.

(** [l.splice(idx, 1)] for [0 <= idx]. *)
Definition splice1 {A : Type} (idx : Z) (l : list A) : list A :=
  (firstn (Z.to_nat idx) l ++ skipn (S (Z.to_nat idx)) l)%list.

(** [l.slice(0, n)] for [0 < n]. *)
Definition slice0 {A : Type} (n : Z) (l : list A) : list A :=
  firstn (Z.to_nat n) l.

End Js.

(* ================================================================== *)
(** ** Headers, blobs, requests and responses *)

Definition Headers := list (string * string).

Fixpoint headers_get (name : string) (h : Headers) : option string :=
  match h with
  | [] => None
  | (k, v) :: r =>
      if String.eqb (Js.lowercase k) (Js.lowercase name) then Some v
      else headers_get name r
  end.

Definition headers_delete (name : string) (h : Headers) : Headers :=
  filter (fun kv => negb (String.eqb (Js.lowercase (fst kv)) (Js.lowercase name))) h.

Definition Blob := list byte.

Definition blob_size (b : Blob) : Z := Z.of_nat (List.length b).

(** [Blob.slice(start, end)]: both ends are clamped to the blob, a negative
    end counts from the end of the blob, an empty span gives an empty blob. *)
Definition blob_slice (b : Blob) (start : Z) (end_ : option Z) : Blob :=
  let size := blob_size b in
  let clamp (x : Z) := if x <? 0 then Z.max (size + x) 0 else Z.min x size in
  let relativeStart := clamp start in
  let relativeEnd := match end_ with Some e => clamp e | None => size end in
  let span := Z.max (relativeEnd - relativeStart) 0 in
  firstn (Z.to_nat span) (skipn (Z.to_nat relativeStart) b).

Record Request := mkRequest {
  rq_url : string;
  rq_headers : Headers;
  rq_credentials : bool   (* credentials: "include" *)
}.

Record Response := mkResponse {
  rs_status : Z;
  rs_headers : Headers;
  rs_body : Blob;
  rs_url : string
}.

Definition rs_ok (r : Response) : bool :=
  ((200 <=? rs_status r) && (rs_status r <=? 299))%bool.

(** What a rejected promise carries. *)
Inductive Thrown :=
| DOMException (name message : string)
| ErrorObject (name message : string)
| ThrownResponse (r : Response).

(** The text of [`${e}`]. *)
Definition String_of_thrown (e : Thrown) : string :=
  match e with
  | DOMException n m => n ++ ": " ++ m
  | ErrorObject n m => n ++ ": " ++ m
  | ThrownResponse _ => "[object Response]"
  end.

Inductive Outcome (A : Type) :=
| Fulfilled (a : A)
| Rejected (e : Thrown).
Arguments Fulfilled {A} a.
Arguments Rejected {A} e.

(* ================================================================== *)
(** ** Range response builder *)

(** The match of [/^bytes=(\d+)-?(\d+)?/]: the two groups, or [None] when
    the pattern fails. *)
Definition exec_range_pattern (range : string) : option (string * option string) :=
  match Js.strip_prefix "bytes=" range with
  | None => None
  | Some s1 =>
      let (g1, s2) := Js.span_digits s1 in
      if Js.is_empty g1 then None
      else
        let s3 := match s2 with
                  | String "-"%char r => r
                  | _ => s2
                  end in
        let (g2, _) := Js.span_digits s3 in
        Some (g1, if Js.is_empty g2 then None else Some g2)
  end.

(** [parseRange]; reading a group of a failed match throws. *)
Definition parseRange (range : string) : Outcome (Z * option Z) :=
  match exec_range_pattern range with
  | None => Rejected (ErrorObject "TypeError" "r is null")
  | Some (g1, g2) =>
      Fulfilled (Js.Number_of_digits g1,
                 if Js.truthy_string g2
                 then option_map Js.Number_of_digits g2
                 else None)
  end.

Definition buildResponse (originalResponse : Response) (range : option string)
  : Outcome Response :=
  if Js.truthy_string range then
    let body := rs_body originalResponse in
    let size := blob_size body in
    match parseRange (Js.String_of_nullable range) with
    | Rejected e => Rejected e
    | Fulfilled (start, end_) =>
        Fulfilled
          (mkResponse 206
             [("Content-Range",
               "bytes " ++ Js.String_of_number start ++ "-"
                 ++ Js.String_of_number
                      (if Js.truthy_number end_
                       then match end_ with Some e => e | None => 0 end
                       else size - 1)
                 ++ "/" ++ Js.String_of_number size);
              ("Content-Type",
               Js.String_of_nullable
                 (headers_get "Content-Type" (rs_headers originalResponse)))]
             (blob_slice body start
                (if Js.truthy_number end_
                 then option_map (fun e => e + 1) end_
                 else None))
             "")
    end
  else Fulfilled originalResponse.

(* ================================================================== *)
(** ** The cache store *)

(** A [Cache] keeps its records in insertion order; a key is the URL of the
    stored request. *)
Definition Cache := list (string * Response).

Definition cache_keys (c : Cache) : list string := map fst c.

Fixpoint cache_match (key : string) (c : Cache) : option Response :=
  match c with
  | [] => None
  | (k, r) :: rest => if String.eqb k key then Some r else cache_match key rest
  end.

(** [cache.put]: a record under the same key is replaced, and the new
    record is the most recent one. *)
Definition cache_put (key : string) (r : Response) (c : Cache) : Cache :=
  (filter (fun kr => negb (String.eqb (fst kr) key)) c ++ [(key, r)])%list.

(** [cache.delete]: whether a record was removed, and the remaining store. *)
Definition cache_delete (key : string) (c : Cache) : bool * Cache :=
  (existsb (fun kr => String.eqb (fst kr) key) c,
   filter (fun kr => negb (String.eqb (fst kr) key)) c).

(* ================================================================== *)
(** ** Eviction policy *)

(** [evictCache]; the callback acts on a state [S] of its own. *)
Definition evictCache {S : Type} (cache : Cache) (sizeLimit : Z)
    (onDelete : option (string -> S -> S)) (s : S) : Cache * S :=
  let keys := cache_keys cache in
  let toDelete := Z.of_nat (List.length keys) - sizeLimit in
  if 0 <? toDelete then
    let deleteList := Js.slice0 toDelete keys in
    fold_left
      (fun (cs : Cache * S) (key : string) =>
         let (ok, c') := cache_delete key (fst cs) in
         if ok
         then (c', match onDelete with
                   | Some f => f key (snd cs)
                   | None => snd cs
                   end)
         else (c', snd cs))
      (List.rev deleteList) (cache, s)
  else (cache, s).

(* ================================================================== *)
(** ** Controller state and promise chains *)

Record FetchQueueItem := mkFetchQueueItem {
  url : string;
  abort : nat;
  isDirect : option bool;
  folderPosition : option Z
}.

Inductive CacheMessageKind :=
| ActualCached | PrefetchCached | Skipped | Deleted | PrefetchError.

Record CacheMessage := mkCacheMessage {
  kind : CacheMessageKind;
  cachedUrl : string;
  originalUrl : string;
  error : option Thrown
}.

Inductive LogLevel := Debug | Error.

Record State := mkState {
  queue : list FetchQueueItem;          (* this.queue *)
  cache : Cache;                        (* the controller's named store *)
  sent : list CacheMessage;             (* calls of broadcastMessage *)
  aborted : list nat;                   (* calls of abort() *)
  fetched : list (Request * option nat);(* calls of fetch, with the signal *)
  console : list (LogLevel * string);
  fresh : nat;                          (* the next AbortController *)
  opened : nat                          (* calls of caches.open so far *)
}.

Definition set_queue (q : list FetchQueueItem) (s : State) : State :=
  mkState q (cache s) (sent s) (aborted s) (fetched s) (console s) (fresh s) (opened s).
Definition set_cache (c : Cache) (s : State) : State :=
  mkState (queue s) c (sent s) (aborted s) (fetched s) (console s) (fresh s) (opened s).
Definition set_sent (m : list CacheMessage) (s : State) : State :=
  mkState (queue s) (cache s) m (aborted s) (fetched s) (console s) (fresh s) (opened s).
Definition set_aborted (a : list nat) (s : State) : State :=
  mkState (queue s) (cache s) (sent s) a (fetched s) (console s) (fresh s) (opened s).
Definition set_fetched (f : list (Request * option nat)) (s : State) : State :=
  mkState (queue s) (cache s) (sent s) (aborted s) f (console s) (fresh s) (opened s).
Definition set_console (l : list (LogLevel * string)) (s : State) : State :=
  mkState (queue s) (cache s) (sent s) (aborted s) (fetched s) l (fresh s) (opened s).
Definition set_fresh (n : nat) (s : State) : State :=
  mkState (queue s) (cache s) (sent s) (aborted s) (fetched s) (console s) n (opened s).
Definition set_opened (n : nat) (s : State) : State :=
  mkState (queue s) (cache s) (sent s) (aborted s) (fetched s) (console s) (fresh s) n.

(** What the platform decides: how a fetch settles, whether the n-th
    [caches.open] succeeds, and whether a [cache.put] fails. *)
Record Env := mkEnv {
  net : Request -> Outcome Response;
  opens : nat -> bool;
  puts : string -> Response -> option Thrown
}.

Definition M (A : Type) : Type := State -> Outcome A * State.

Definition ret {A : Type} (a : A) : M A := fun s => (Fulfilled a, s).

Definition throw {A : Type} (e : Thrown) : M A := fun s => (Rejected e, s).

(** [p.then(f)] *)
Definition then_ {A B : Type} (p : M A) (f : A -> M B) : M B :=
  fun s =>
    match p s with
    | (Fulfilled a, s') => f a s'
    | (Rejected e, s') => (Rejected e, s')
    end.

(** [p.catch(h)] *)
Definition catch_ {A : Type} (p : M A) (h : Thrown -> M A) : M A :=
  fun s =>
    match p s with
    | (Fulfilled a, s') => (Fulfilled a, s')
    | (Rejected e, s') => h e s'
    end.

(** A chain that is started and not awaited: its effects happen, how it
    settles is dropped. *)
Definition detach {A : Type} (p : M A) : M unit :=
  fun s => (Fulfilled tt, snd (p s)).

Definition settle {A : Type} (o : Outcome A) : M A := fun s => (o, s).

Declare Scope chain_scope.
Delimit Scope chain_scope with chain.
Notation "x <- p ;; k" := (then_ p (fun x => k))
  (at level 61, p at next level, right associativity) : chain_scope.
Notation "p ;; k" := (then_ p (fun _ => k))
  (at level 61, right associativity) : chain_scope.
Local Open Scope chain_scope.

Definition console_log (l : LogLevel) (msg : string) : M unit :=
  fun s => (Fulfilled tt, set_console (console s ++ [(l, msg)])%list s).

Definition broadcastMessage (msg : CacheMessage) : M unit :=
  fun s => (Fulfilled tt, set_sent (sent s ++ [msg])%list s).

Definition new_AbortController : M nat :=
  fun s => (Fulfilled (fresh s), set_fresh (S (fresh s)) s).

Section Platform.

Variable env : Env.

Definition fetch (r : Request) (signal : option nat) : M Response :=
  fun s => (net env r, set_fetched (fetched s ++ [(r, signal)])%list s).

Definition caches_open : M unit :=
  fun s =>
    (if opens env (opened s) then Fulfilled tt
     else Rejected (DOMException "UnknownError" "cache storage unavailable"),
     set_opened (S (opened s)) s).

Definition cache_match_ (r : Request) : M (option Response) :=
  fun s => (Fulfilled (cache_match (rq_url r) (cache s)), s).

Definition cache_put_ (key : string) (r : Response) : M unit :=
  fun s =>
    match puts env key r with
    | Some e => (Rejected e, s)
    | None => (Fulfilled tt, set_cache (cache_put key r (cache s)) s)
    end.

End Platform.

(** [evictCache] on the controller's store, with a callback that acts on the
    controller's state. *)
Definition evictCache_ (sizeLimit : Z) (onDelete : option (string -> M unit)) : M unit :=
  fun s =>
    let (c', s') :=
      evictCache (cache s) sizeLimit
        (option_map (fun f key st => snd (f key st)) onDelete) s in
    (Fulfilled tt, set_cache c' s').

Definition cloneRequest (req : Request) : Request :=
  mkRequest (rq_url req) [] true.

Definition logFetchError (e : Thrown) (url : string) : M unit :=
  match e with
  | DOMException "AbortError" _ =>
      console_log Debug ("Caching of " ++ url ++ " was aborted")
  | _ =>
      console_log Error ("Error caching of " ++ url ++ ": " ++ String_of_thrown e)
  end.

(* ================================================================== *)
(** ** Audio cache controller *)

Record PrefetchMessage := mkPrefetchMessage {
  pm_url : string;
  pm_folderPosition : option Z
}.

Module AudioCache.

(** *** The request queue *)

Definition has (q : list FetchQueueItem) (u : string) : bool :=
  0 <=? Js.findIndex (fun i => String.eqb (url i) u) q.

(** [add]: the queue after the call, and the log of [abort()] calls
    extended by those the call makes. *)
Definition add (q : list FetchQueueItem) (log : list nat)
    (u : string) (a : nat) (direct : option bool) (pos : option Z)
  : list FetchQueueItem * list nat :=
  let log' :=
    if Js.truthy_bool direct
    then fold_left
           (fun (l : list nat) (i : FetchQueueItem) =>
              if Js.truthy_bool (isDirect i) then (l ++ [abort i])%list else l)
           q log
    else log in
  ((q ++ [mkFetchQueueItem u a direct pos])%list, log').

Definition delete (q : list FetchQueueItem) (u : string) : list FetchQueueItem :=
  let idx := Js.findIndex (fun i => String.eqb (url i) u) q in
  if 0 <=? idx then Js.splice1 idx q else q.

Definition has_ (u : string) : M bool :=
  fun s => (Fulfilled (has (queue s) u), s).

Definition add_ (u : string) (a : nat) (direct : option bool) (pos : option Z) : M unit :=
  fun s =>
    let (q', log') := add (queue s) (aborted s) u a direct pos in
    (Fulfilled tt, set_aborted log' (set_queue q' s)).

Definition delete_ (u : string) : M unit :=
  fun s => (Fulfilled tt, set_queue (delete (queue s) u) s).

(** *** The handlers *)

Section Controller.

(** [removeQuery] is imported from another module of the client, and
    [Number(...)] of a header value is JavaScript's; [None] stands for
    [NaN]. *)
Variable removeQuery : string -> string.
Variable toNumber : string -> option Z.
Variable env : Env.
Variable sizeLimit : Z.

Definition broadcastDeleted (key : string) : M unit :=
  broadcastMessage (mkCacheMessage Deleted key key None).

Definition handleRequest (evt : Request) : M Response :=
  let rangeHeader := headers_get "range" (rq_headers evt) in
  catch_
    (caches_open env ;;
     resp <- cache_match_ evt ;;
     match resp with
     | Some resp =>
         console_log Debug ("SERVING CACHED AUDIO: " ++ rs_url resp) ;;
         settle (buildResponse resp rangeHeader)
     | None =>
         let keyReq := removeQuery (rq_url evt) in
         queued <- has_ keyReq ;;
         if queued : bool then
           console_log Debug
             ("Not caching direct request " ++ keyReq
                ++ " as it is already in progress elsewhere") ;;
           fetch env evt None
         else
           let posHeader := headers_get "X-Folder-Position" (rq_headers evt) in
           let folderPosition :=
             if Js.truthy_string posHeader
             then toNumber (Js.String_of_nullable posHeader)
             else None in
           let req := cloneRequest evt in
           abort <- new_AbortController ;;
           add_ keyReq abort (Some true) folderPosition ;;
           let req := mkRequest (rq_url req)
                        (headers_delete "Range" (rq_headers req))
                        (rq_credentials req) in
           resp <- fetch env req (Some abort) ;;
           let keyReq := removeQuery (rq_url evt) in
           detach
             (catch_
                (cache_put_ env keyReq resp ;;
                 broadcastMessage
                   (mkCacheMessage ActualCached keyReq (rs_url resp) None) ;;
                 detach (evictCache_ sizeLimit (Some broadcastDeleted)))
                (fun e => logFetchError e keyReq) ;;
              delete_ keyReq) ;;
           ret resp
     end)
    (fun err =>
       console_log Error ("SW Error " ++ String_of_thrown err) ;;
       ret (mkResponse 555 [("Content-Type", "text/plain;charset=UTF-8")]
              (list_byte_of_string "Service Worker Cache Error") "")).

(** [handlePrefetch]; the chain handed to [evt.waitUntil] is run to its
    end.  The request it fetches carries credentials; its cache mode
    ("no-cache") is not part of [Request]. *)
Definition handlePrefetch (msg : PrefetchMessage) : M unit :=
  console_log Debug ("SW PREFETCH " ++ pm_url msg) ;;
  let keyUrl := removeQuery (pm_url msg) in
  queued <- has_ keyUrl ;;
  if queued : bool then
    broadcastMessage (mkCacheMessage Skipped keyUrl (pm_url msg) None)
  else
    abort <- new_AbortController ;;
    add_ keyUrl abort (Some false) (pm_folderPosition msg) ;;
    catch_
      (resp <- fetch env (mkRequest (pm_url msg) [] true) (Some abort) ;;
       if rs_ok resp then
         caches_open env ;;
         cache_put_ env keyUrl resp ;;
         broadcastMessage
           (mkCacheMessage PrefetchCached keyUrl (rs_url resp) None) ;;
         detach (evictCache_ sizeLimit (Some broadcastDeleted)) ;;
         console_log Debug
           ("SW PREFETCH RESPONSE: " ++ Js.String_of_number (rs_status resp)
              ++ " saving as " ++ keyUrl)
       else
         console_log Error
           ("Cannot cache audio " ++ rs_url resp ++ ": STATUS "
              ++ Js.String_of_number (rs_status resp)) ;;
         broadcastMessage
           (mkCacheMessage PrefetchError keyUrl (rs_url resp)
              (Some (ErrorObject "Error"
                       ("Response status error code: "
                          ++ Js.String_of_number (rs_status resp))))))
      (fun err =>
         broadcastMessage
           (mkCacheMessage PrefetchError keyUrl (pm_url msg) (Some err))) ;;
    delete_ keyUrl.

End Controller.

(** [abort(pathPrefix, keepDirect)]: the log of [abort()] calls after the
    loop, and how the call settles.  [pathname] is [new URL(u).pathname] of
    the platform, [None] where the constructor throws; the loop ends at the
    first throw. *)
Definition abort (pathname : string -> option string)
    (q : list FetchQueueItem) (log : list nat)
    (pathPrefix : option string) (keepDirect : option bool)
  : Outcome unit * list nat :=
  fold_left
    (fun (st : Outcome unit * list nat) (i : FetchQueueItem) =>
       match fst st with
       | Rejected _ => st
       | Fulfilled _ =>
           if negb (Js.truthy_bool keepDirect && Js.truthy_bool (isDirect i)) then
             if negb (Js.truthy_string pathPrefix)
             then (Fulfilled tt, (snd st ++ [abort i])%list)
             else
               match pathname (url i) with
               | None => (Rejected (ErrorObject "TypeError" "Invalid URL"), snd st)
               | Some path =>
                   if String.prefix (Js.String_of_nullable pathPrefix) path
                   then (Fulfilled tt, (snd st ++ [abort i])%list)
                   else st
               end
           else st
       end)
    q (Fulfilled tt, log).

End AudioCache.

(* ================================================================== *)
(** ** Network-first cache controller *)

Module NetworkFirstCache.

Section Controller.

Variable env : Env.
Variable cacheName : string.
Variable sizeLimit : Z.
Variable isEnabled : bool.

(** The response the event is answered with; [None] when the controller is
    disabled and leaves the event alone. *)
Definition handleRequest (evt : Request) : M (option Response) :=
  if negb isEnabled then ret None
  else
    served <-
      catch_
        (response <- fetch env evt None ;;
         if negb (rs_status response =? 200) then
           console_log Error
             ("Server returned status " ++ Js.String_of_number (rs_status response)
                ++ " for " ++ rq_url evt) ;;
           throw (ThrownResponse response)
         else
           caches_open env ;;
           detach
             (cache_put_ env (rq_url evt) response ;;
              evictCache_ sizeLimit
                (Some (fun key =>
                         console_log Debug
                           ("Deleted " ++ key ++ " from cache " ++ cacheName)))) ;;
           ret response)
        (fun e =>
           let errorResponse :=
             match e with
             | ThrownResponse r => r
             | _ =>
                 mkResponse 555 [("Content-Type", "text/plain;charset=UTF-8")]
                   (list_byte_of_string
                      ("NetworkFirst Cache Error: " ++ String_of_thrown e)) ""
             end in
           catch_
             (caches_open env ;;
              resp <- cache_match_ evt ;;
              match resp with
              | Some resp =>
                  console_log Debug "Returning cached response" ;;
                  ret resp
              | None => ret errorResponse
              end)
             (fun _ => ret errorResponse)) ;;
    ret (Some served).

End Controller.

End NetworkFirstCache.

(* ================================================================== *)
(** ** Notions used to state the properties *)

(** A string made of digits only. *)
Fixpoint all_digits (s : string) : bool :=
  match s with
  | EmptyString => true
  | String c r => (Js.is_digit c && all_digits r)%bool
  end.

(** What [evictCache] does with its callback for one key. *)
Definition call_onDelete {S : Type} (onDelete : option (string -> S -> S))
    (s : S) (key : string) : S :=
  match onDelete with Some f => f key s | None => s end.

(** One turn of the loop of [evictCache]. *)
Definition evict_step {S : Type} (onDelete : option (string -> S -> S))
    (cs : Cache * S) (key : string) : Cache * S :=
  let (ok, c') := cache_delete key (fst cs) in
  if ok then (c', call_onDelete onDelete (snd cs) key) else (c', snd cs).

Definition mem (k : string) (ks : list string) : bool :=
  existsb (String.eqb k) ks.

(** The callback that records the keys it is called with. *)
Definition record_call (key : string) (calls : list string) : list string :=
  (calls ++ [key])%list.

(** A store whose keys are normalized URLs: stripping the query leaves
    each of them as it is.  The audio controller writes no other key: its
    two [cache.put] are under [removeQuery(url)]. *)
Definition keys_normalized (removeQuery : string -> string) (c : Cache) : Prop :=
  forall k : string, In k (cache_keys c) -> removeQuery k = k.

Definition marked_direct (i : FetchQueueItem) : bool :=
  Js.truthy_bool (isDirect i).

(** The synthetic response of the audio controller. *)
Definition cache_error_response : Response :=
  mkResponse 555 [("Content-Type", "text/plain;charset=UTF-8")]
    (list_byte_of_string "Service Worker Cache Error") "".

(** The request [AudioCache.handleRequest] sends to the network for a
    resource it is going to cache, and the entry it registers for it. *)
Definition direct_request (evt : Request) : Request :=
  mkRequest (rq_url evt) [] true.

Definition direct_entry (removeQuery : string -> string)
    (toNumber : string -> option Z) (evt : Request) (s : State) : FetchQueueItem :=
  mkFetchQueueItem (removeQuery (rq_url evt)) (fresh s) (Some true)
    (if Js.truthy_string (headers_get "X-Folder-Position" (rq_headers evt))
     then toNumber (Js.String_of_nullable
                      (headers_get "X-Folder-Position" (rq_headers evt)))
     else None).

(** A fetch that failed in the eyes of the network-first controller: it was
    rejected, or it resolved with a status other than 200. *)
Definition fetch_failed (o : Outcome Response) : bool :=
  match o with
  | Fulfilled resp => negb (rs_status resp =? 200)
  | Rejected _ => true
  end.

(** The synthetic response of the network-first controller for a failure
    that is not itself a response. *)
Definition network_error_response (e : Thrown) : Response :=
  mkResponse 555 [("Content-Type", "text/plain;charset=UTF-8")]
    (list_byte_of_string ("NetworkFirst Cache Error: " ++ String_of_thrown e)) "".

(** A chain that is fulfilled from every state. *)
Definition never_rejects {A : Type} (p : M A) : Prop :=
  forall s : State, exists a : A, fst (p s) = Fulfilled a.

(** The message the audio controller broadcasts for an evicted key. *)
Definition deleted_message (key : string) : CacheMessage :=
  mkCacheMessage Deleted key key None.

(** How many records [evictCache] takes from a store. *)
Definition evict_count (c : Cache) (sizeLimit : Z) : nat :=
  Z.to_nat (Z.of_nat (List.length c) - sizeLimit).

(** The entries a call of [AudioCache.abort] cancels when every URL of the
    queue parses. *)
Definition abort_selects (pathname : string -> option string)
    (pathPrefix : option string) (keepDirect : option bool)
    (i : FetchQueueItem) : bool :=
  (negb (Js.truthy_bool keepDirect && Js.truthy_bool (isDirect i))
   && (negb (Js.truthy_string pathPrefix)
       || match pathname (url i) with
          | Some path => String.prefix (Js.String_of_nullable pathPrefix) path
          | None => false
          end))%bool.

(** The request [handlePrefetch] sends to the network. *)
Definition prefetch_request (msg : PrefetchMessage) : Request :=
  mkRequest (pm_url msg) [] true.

(** A prefetch that does not get to store its response: the fetch is
    rejected or answers with a status outside 200-299, the cache storage
    does not open, or the write fails. *)
Definition prefetch_fails (env : Env) (key : string) (msg : PrefetchMessage)
    (s : State) : bool :=
  match net env (prefetch_request msg) with
  | Rejected _ => true
  | Fulfilled resp =>
      (negb (rs_ok resp) || negb (opens env (opened s))
       || match puts env key resp with Some _ => true | None => false end)%bool
  end.

(* ================================================================== *)
(** ** Sample data *)

(** Modelled from the spec: [removeQuery], the normalization utility the
    controller imports from the client's index module, which is not among the
    sources; it strips the query parameters of a URL. *)
Fixpoint removeQuery_model (u : string) : string :=
  match u with
  | EmptyString => EmptyString
  | String c r => if Ascii.eqb c "?" then EmptyString else String c (removeQuery_model r)
  end.

(** [Number(...)] of a header value, for headers made of digits. *)
Definition toNumber_model (s : string) : option Z :=
  option_map Z.of_uint (NilZero.uint_of_string s).

(** A platform whose network answers every request with [resp], whose
    cache storage opens and whose writes succeed; one whose network is
    down. *)
Definition env_answering (resp : Response) : Env :=
  mkEnv (fun _ => Fulfilled resp) (fun _ => true) (fun _ _ => None).

Definition env_offline : Env :=
  mkEnv (fun _ => Rejected (ErrorObject "TypeError" "Failed to fetch"))
    (fun _ => true) (fun _ _ => None).

Definition state_of (q : list FetchQueueItem) (c : Cache) : State :=
  mkState q c [] [] [] [] 0 0.

Definition not_found : Response :=
  mkResponse 404 [("Content-Type", "text/plain")] [] "http://h/api/folder".

(** A request for a track, a queue entry of a prefetch of the same track,
    and what the network answers to the request. *)
Definition sample_evt : Request := mkRequest "http://h/a.mp3?t=1" [] false.

Definition queued_prefetch : FetchQueueItem :=
  mkFetchQueueItem "http://h/a.mp3" 0 (Some false) None.

(** A request for a track that is not in [sample_cache], and the queue
    entry of a prefetch of it. *)
Definition other_evt : Request := mkRequest "http://h/d.mp3?t=1" [] false.

Definition queued_other : FetchQueueItem :=
  mkFetchQueueItem "http://h/d.mp3" 0 (Some false) None.

Definition network_resp : Response :=
  mkResponse 200 [("Content-Type", "audio/mpeg")] [x09]%byte "http://h/a.mp3?t=1".

(** [new URL(u).pathname] for the URLs of the host [h]. *)
Definition sample_pathname (u : string) : option string :=
  Js.strip_prefix "http://h" u.

(** A platform whose writes to the store fail, one whose cache storage does
    not open; the network of both answers with [network_resp]. *)
Definition env_write_fails : Env :=
  mkEnv (fun _ => Fulfilled (mkResponse 200 [("Content-Type", "audio/mpeg")]
                               [x09]%byte "http://h/a.mp3?t=1"))
    (fun _ => true)
    (fun _ _ => Some (DOMException "QuotaExceededError" "quota exceeded")).

Definition env_no_storage : Env :=
  mkEnv (fun _ => Fulfilled (mkResponse 200 [("Content-Type", "audio/mpeg")]
                               [x09]%byte "http://h/a.mp3?t=1"))
    (fun _ => false) (fun _ _ => None).

(** A request with a [Range] header, a prefetch message, a queue of one
    direct and one prefetch entry for other tracks. *)
Definition ranged_evt : Request :=
  mkRequest "http://h/a.mp3" [("Range", "bytes=1-3")] false.

Definition sample_msg : PrefetchMessage :=
  mkPrefetchMessage "http://h/a.mp3?t=1" None.

Definition sample_queue : list FetchQueueItem :=
  [mkFetchQueueItem "http://h/b.mp3" 7 (Some true) None;
   mkFetchQueueItem "http://h/c.mp3" 8 (Some false) None].

Definition sample_body : Blob := [x00; x01; x02; x03; x04]%byte.

Definition sample_resp : Response :=
  mkResponse 200 [("Content-Type", "audio/mpeg")] sample_body "http://h/a.mp3".

(** A store of three records, the oldest first. *)
Definition sample_cache : Cache :=
  [("http://h/a.mp3", sample_resp);
   ("http://h/b.mp3", sample_resp);
   ("http://h/c.mp3", sample_resp)].

(* ================================================================== *)
(** ** Strings and numbers *)

Module JsFacts.

Lemma all_digits_string_of_uint (d : Decimal.uint) :
  all_digits (NilEmpty.string_of_uint d) = true.
Proof. induction d; simpl; auto. Qed.

Lemma span_digits_app (ds rest : string) :
  all_digits ds = true ->
  Js.span_digits rest = (EmptyString, rest) ->
  Js.span_digits (ds ++ rest) = (ds, rest).
Proof.
  intros Hd Hr. induction ds as [|c ds IH]; simpl in *.
  - exact Hr.
  - apply andb_prop in Hd. destruct Hd as [Hc Hd].
    rewrite Hc, (IH Hd). reflexivity.
Qed.

Lemma span_digits_all (ds : string) :
  all_digits ds = true -> Js.span_digits ds = (ds, EmptyString).
Proof.
  intros Hd. induction ds as [|c ds IH]; simpl in *.
  - reflexivity.
  - apply andb_prop in Hd. destruct Hd as [Hc Hd].
    rewrite Hc, (IH Hd). reflexivity.
Qed.

Lemma is_empty_false (s : string) : s <> EmptyString -> Js.is_empty s = false.
Proof. destruct s; [congruence | reflexivity]. Qed.

(** The pattern on a header spelled with two runs of digits. *)
Lemma exec_range_pattern_digits (ds de : string) :
  all_digits ds = true -> ds <> EmptyString ->
  all_digits de = true -> de <> EmptyString ->
  exec_range_pattern ("bytes=" ++ ds ++ "-" ++ de) = Some (ds, Some de).
Proof.
  intros Hs Hsn He Hen. unfold exec_range_pattern.
  change (Js.strip_prefix "bytes=" ("bytes=" ++ ds ++ "-" ++ de))
    with (Some (ds ++ String "-" de)).
  cbv beta iota.
  rewrite (span_digits_app ds (String "-" de) Hs eq_refl).
  rewrite (is_empty_false ds Hsn), (span_digits_all de He), (is_empty_false de Hen).
  reflexivity.
Qed.

Section Numbers.

Variable n : Z.
Hypothesis n_nonneg : 0 <= n.

Lemma String_of_number_digits : all_digits (Js.String_of_number n) = true.
Proof.
  unfold Js.String_of_number. destruct n as [|p|p]; try lia; simpl.
  - reflexivity.
  - unfold NilZero.string_of_uint.
    destruct (Pos.to_uint p); try reflexivity; apply all_digits_string_of_uint.
Qed.

Lemma String_of_number_nonempty : Js.String_of_number n <> EmptyString.
Proof.
  unfold Js.String_of_number. destruct n as [|p|p]; try lia; simpl.
  - discriminate.
  - unfold NilZero.string_of_uint.
    destruct (Pos.to_uint p); simpl; discriminate.
Qed.

Lemma Number_of_String : Js.Number_of_digits (Js.String_of_number n) = n.
Proof.
  unfold Js.String_of_number, Js.Number_of_digits.
  destruct n as [|p|p]; try lia; simpl.
  - reflexivity.
  - unfold NilZero.string_of_uint.
    pose proof (DecimalPos.Unsigned.to_uint_nonnil p) as Hnn.
    pose proof (DecimalPos.Unsigned.of_to p) as Hof.
    replace (match Pos.to_uint p with
             | Decimal.Nil => "0"
             | _ => NilEmpty.string_of_uint (Pos.to_uint p)
             end) with (NilEmpty.string_of_uint (Pos.to_uint p))
      by (destruct (Pos.to_uint p); congruence).
    rewrite NilEmpty.usu. unfold Z.of_uint. rewrite Hof. reflexivity.
Qed.

End Numbers.

End JsFacts.

(* ================================================================== *)
(** ** Range response builder: properties *)

Lemma blob_slice_inside (b : Blob) (S E : Z) :
  0 <= S -> S <= E -> E < blob_size b ->
  blob_slice b S (Some (E + 1))
  = firstn (Z.to_nat (E - S + 1)) (skipn (Z.to_nat S) b)
  /\ blob_size (blob_slice b S (Some (E + 1))) = E - S + 1.
Proof.
  intros HS HSE HE. unfold blob_slice.
  assert (H1 : (S <? 0) = false) by (apply Z.ltb_ge; lia).
  assert (H2 : (E + 1 <? 0) = false) by (apply Z.ltb_ge; lia).
  rewrite H1, H2.
  replace (Z.min S (blob_size b)) with S by lia.
  replace (Z.min (E + 1) (blob_size b)) with (E + 1) by lia.
  replace (Z.max (E + 1 - S) 0) with (E - S + 1) by lia.
  split; [reflexivity|].
  unfold blob_size in *. rewrite length_firstn, length_skipn. lia.
Qed.

Lemma parseRange_S_E (S E : Z) :
  0 <= S -> 0 <= E ->
  parseRange ("bytes=" ++ Js.String_of_number S ++ "-" ++ Js.String_of_number E)
  = Fulfilled (S, Some E).
Proof.
  intros HS HE. unfold parseRange.
  rewrite JsFacts.exec_range_pattern_digits
    by auto using JsFacts.String_of_number_digits, JsFacts.String_of_number_nonempty.
  unfold Js.truthy_string.
  rewrite (JsFacts.is_empty_false _ (JsFacts.String_of_number_nonempty E HE)).
  simpl. rewrite !JsFacts.Number_of_String by assumption. reflexivity.
Qed.

(** What the builder answers to [bytes=S-E] in terms of the end the header
    gives: an end of [0] is read as no end. *)
Lemma buildResponse_S_E (resp : Response) (S E : Z) :
  0 <= S -> 0 <= E ->
  buildResponse resp
    (Some ("bytes=" ++ Js.String_of_number S ++ "-" ++ Js.String_of_number E))
  = Fulfilled
      (mkResponse 206
         [("Content-Range",
           "bytes " ++ Js.String_of_number S ++ "-"
             ++ Js.String_of_number
                  (if E =? 0 then blob_size (rs_body resp) - 1 else E)
             ++ "/" ++ Js.String_of_number (blob_size (rs_body resp)));
          ("Content-Type",
           Js.String_of_nullable (headers_get "Content-Type" (rs_headers resp)))]
         (blob_slice (rs_body resp) S (if E =? 0 then None else Some (E + 1)))
         "").
Proof.
  intros HS HE. unfold buildResponse.
  change (Js.truthy_string (Some ("bytes=" ++ Js.String_of_number S ++ "-"
                                    ++ Js.String_of_number E))) with true.
  cbv beta iota. unfold Js.String_of_nullable at 1.
  rewrite (parseRange_S_E S E HS HE).
  unfold Js.truthy_number. destruct (E =? 0); reflexivity.
Qed.

(** C3 (as amended).  For a full response of [N] bytes and the header
    [bytes=S-E] with [1 <= E], all three numbers safe integers,
    [buildResponse] answers with status 206, the header
    [Content-Range: bytes S-E/N], the Content-Type of the original, and the
    slice [[S, E+1)] of the body as [Blob.slice] cuts it; when [S <= E < N]
    that slice is the [E-S+1] bytes from offset [S]. *)
Theorem buildResponse_range (resp : Response) (S E : Z) :
  0 <= S <= Js.MAX_SAFE_INTEGER ->
  1 <= E <= Js.MAX_SAFE_INTEGER ->
  blob_size (rs_body resp) <= Js.MAX_SAFE_INTEGER ->
  exists out,
    buildResponse resp
      (Some ("bytes=" ++ Js.String_of_number S ++ "-" ++ Js.String_of_number E))
    = Fulfilled out
    /\ rs_status out = 206
    /\ headers_get "Content-Range" (rs_headers out)
       = Some ("bytes " ++ Js.String_of_number S ++ "-" ++ Js.String_of_number E
                 ++ "/" ++ Js.String_of_number (blob_size (rs_body resp)))
    /\ (forall ct, headers_get "Content-Type" (rs_headers resp) = Some ct ->
                   headers_get "Content-Type" (rs_headers out) = Some ct)
    /\ rs_body out = blob_slice (rs_body resp) S (Some (E + 1))
    /\ (S <= E < blob_size (rs_body resp) ->
        rs_body out
        = firstn (Z.to_nat (E - S + 1)) (skipn (Z.to_nat S) (rs_body resp))
        /\ blob_size (rs_body out) = E - S + 1).
Proof.
  intros HS HE _. eexists. split.
  - rewrite buildResponse_S_E by lia.
    replace (E =? 0) with false by (symmetry; apply Z.eqb_neq; lia).
    reflexivity.
  - cbn [rs_status rs_headers rs_body]. repeat split.
    + intros ct Hct. rewrite Hct. reflexivity.
    + apply blob_slice_inside; lia.
    + apply blob_slice_inside; lia.
Qed.

Lemma buildResponse_range_witness :
  0 <= 1 <= Js.MAX_SAFE_INTEGER /\ 1 <= 3 <= Js.MAX_SAFE_INTEGER /\
  blob_size (rs_body sample_resp) <= Js.MAX_SAFE_INTEGER /\
  exists out,
    buildResponse sample_resp (Some "bytes=1-3") = Fulfilled out
    /\ rs_status out = 206
    /\ headers_get "Content-Range" (rs_headers out) = Some "bytes 1-3/5"
    /\ (forall ct, headers_get "Content-Type" (rs_headers sample_resp) = Some ct ->
                   headers_get "Content-Type" (rs_headers out) = Some ct)
    /\ rs_body out = blob_slice sample_body 1 (Some (3 + 1))
    /\ (1 <= 3 < 5 ->
        rs_body out = [x01; x02; x03]%byte /\ blob_size (rs_body out) = 3 - 1 + 1).
Proof.
  assert (H1 : 0 <= 1 <= Js.MAX_SAFE_INTEGER) by (unfold Js.MAX_SAFE_INTEGER; lia).
  assert (H3 : 1 <= 3 <= Js.MAX_SAFE_INTEGER) by (unfold Js.MAX_SAFE_INTEGER; lia).
  assert (HN : blob_size (rs_body sample_resp) <= Js.MAX_SAFE_INTEGER)
    by (vm_compute; discriminate).
  split; [exact H1|]. split; [exact H3|]. split; [exact HN|].
  exact (buildResponse_range sample_resp 1 3 H1 H3 HN).
Defined.

(** The claim of C3 as the specification words it fails when the end lies
    beyond the body: for [bytes=1-9] on a body of 5 bytes the answer carries
    the 4 bytes that exist, not [9 - 1 + 1]. *)
Lemma buildResponse_end_beyond_body :
  ~ (exists out,
       buildResponse sample_resp (Some "bytes=1-9") = Fulfilled out
       /\ rs_status out = 206
       /\ headers_get "Content-Range" (rs_headers out) = Some "bytes 1-9/5"
       /\ blob_size (rs_body out) = 9 - 1 + 1).
Proof.
  intros (out & Hout & _ & _ & Hsize).
  vm_compute in Hout. injection Hout as <-. vm_compute in Hsize. discriminate.
Qed.

(** An end of [0] is taken for a missing end: [bytes=0-0] is answered with
    the whole body. *)
Lemma buildResponse_end_zero :
  buildResponse sample_resp (Some "bytes=0-0")
  = Fulfilled (mkResponse 206
                 [("Content-Range", "bytes 0-4/5"); ("Content-Type", "audio/mpeg")]
                 sample_body "").
Proof. reflexivity. Qed.

Example buildResponse_no_range :
  buildResponse sample_resp None = Fulfilled sample_resp.
Proof. reflexivity. Qed.

(* ================================================================== *)
(** ** Eviction policy: properties *)

Lemma filter_all {A : Type} (p : A -> bool) (l : list A) :
  (forall x, p x = true) -> filter p l = l.
Proof.
  intros H. induction l as [|x l IH]; [reflexivity|].
  cbn [filter]. rewrite H, IH. reflexivity.
Qed.

Lemma in_firstn {A : Type} (x : A) (l : list A) :
  forall n, In x (firstn n l) -> In x l.
Proof.
  induction l as [|y l IH]; intros [|n] H; cbn [firstn] in H; try contradiction.
  destruct H as [->|H]; [left; reflexivity | right; eauto].
Qed.

Lemma NoDup_firstn {A : Type} (l : list A) :
  NoDup l -> forall n, NoDup (firstn n l).
Proof.
  induction 1 as [|x l Hx Hl IH]; intros [|n]; cbn [firstn]; try constructor.
  - intros Hin. apply Hx. exact (in_firstn _ _ _ Hin).
  - apply IH.
Qed.

Section Eviction.

Context {S : Type}.
Variable onDelete : option (string -> S -> S).

Local Abbreviation evict_step := (evict_step onDelete).
Local Abbreviation call_onDelete := (call_onDelete onDelete).

Lemma mem_In (k : string) (ks : list string) : mem k ks = true <-> In k ks.
Proof.
  unfold mem. rewrite existsb_exists. split.
  - intros (x & Hx & E). apply String.eqb_eq in E. now subst.
  - intros H. exists k. split; [assumption | apply String.eqb_refl].
Qed.

Lemma mem_ext (k : string) (l1 l2 : list string) :
  (In k l1 <-> In k l2) -> mem k l1 = mem k l2.
Proof.
  intros H. apply eq_true_iff_eq. rewrite !mem_In. exact H.
Qed.

Lemma cache_delete_present (key : string) (c : Cache) :
  In key (cache_keys c) -> fst (cache_delete key c) = true.
Proof.
  intros H. unfold cache_delete, cache_keys in *. simpl.
  apply in_map_iff in H. destruct H as (kr & E & Hin).
  apply existsb_exists. exists kr. split; [assumption|].
  rewrite E. apply String.eqb_refl.
Qed.

Lemma keys_filter_other (key k' : string) (c : Cache) :
  k' <> key -> In k' (cache_keys c) ->
  In k' (cache_keys (snd (cache_delete key c))).
Proof.
  intros Hne H. unfold cache_delete, cache_keys in *. simpl.
  apply in_map_iff in H. destruct H as (kr & E & Hin).
  apply in_map_iff. exists kr. split; [assumption|].
  apply filter_In. split; [assumption|].
  rewrite E. apply negb_true_iff, String.eqb_neq. assumption.
Qed.

Lemma mem_cons (k key : string) (ks : list string) :
  mem k (key :: ks) = (String.eqb k key || mem k ks)%bool.
Proof. reflexivity. Qed.

Lemma filter_deleted (key : string) (ks : list string) (c : Cache) :
  filter (fun kr => negb (mem (fst kr) ks))
    (filter (fun kr => negb (String.eqb (fst kr) key)) c)
  = filter (fun kr => negb (mem (fst kr) (key :: ks))) c.
Proof.
  induction c as [|x c IHc]; [reflexivity|].
  cbn [filter]. rewrite mem_cons.
  destruct (String.eqb (fst x) key); cbn [negb orb filter].
  - exact IHc.
  - destruct (mem (fst x) ks); cbn [negb]; rewrite IHc; reflexivity.
Qed.

(** Deleting keys that are all in the store, none twice: every deletion
    succeeds, so the callback runs once per key, in the order of the list. *)
Lemma evict_loop (ks : list string) :
  forall (c : Cache) (s : S),
    NoDup ks ->
    (forall k, In k ks -> In k (cache_keys c)) ->
    fold_left evict_step ks (c, s)
    = (filter (fun kr => negb (mem (fst kr) ks)) c,
       fold_left call_onDelete ks s).
Proof.
  induction ks as [|key ks IH]; intros c s Hnd Hin.
  - cbn [fold_left]. f_equal. symmetry. apply filter_all. reflexivity.
  - inversion Hnd as [|? ? Hnotin Hnd']; subst.
    cbn [fold_left]. unfold evict_step at 2. cbn [fst snd].
    pose proof (cache_delete_present key c (Hin key (or_introl eq_refl))) as Hok.
    destruct (cache_delete key c) as [ok c'] eqn:Ed. cbn [fst] in Hok. subst ok.
    rewrite IH; [| assumption |].
    + f_equal. unfold cache_delete in Ed. injection Ed as _ <-.
      apply filter_deleted.
    + intros k Hk. replace c' with (snd (cache_delete key c)) by (rewrite Ed; reflexivity).
      apply keys_filter_other; [| apply Hin; right; assumption].
      intros ->. contradiction.
Qed.

End Eviction.

(** In a store without repeated keys, dropping the records whose keys are
    among the first [n] keys leaves the records after the first [n]. *)
Lemma filter_oldest (c : Cache) :
  forall n : nat,
    NoDup (cache_keys c) ->
    filter (fun kr => negb (mem (fst kr) (firstn n (cache_keys c)))) c = skipn n c.
Proof.
  induction c as [|x c IH]; intros n Hnd.
  - destruct n; reflexivity.
  - destruct n as [|n].
    + cbn [firstn skipn]. apply filter_all. reflexivity.
    + inversion Hnd as [|? ? Hnotin Hnd']; subst.
      cbn [cache_keys map firstn skipn filter mem existsb].
      rewrite String.eqb_refl. cbn [orb negb].
      rewrite <- (IH n Hnd'). apply filter_ext_in.
      intros kr Hkr. f_equal.
      replace (String.eqb (fst kr) (fst x)) with false; [reflexivity|].
      symmetry. apply String.eqb_neq. intros E. apply Hnotin.
      unfold cache_keys. rewrite <- E. apply in_map. assumption.
Qed.

(** The net effect of [evictCache] on a store without repeated keys, for any
    callback. *)
Lemma evictCache_effect {S : Type} (c : Cache) (sizeLimit : Z)
    (onDelete : option (string -> S -> S)) (s : S) :
  NoDup (cache_keys c) ->
  0 < Z.of_nat (List.length c) - sizeLimit ->
  let k := Z.to_nat (Z.of_nat (List.length c) - sizeLimit) in
  evictCache c sizeLimit onDelete s
  = (skipn k c,
     fold_left (call_onDelete onDelete) (List.rev (firstn k (cache_keys c))) s).
Proof.
  intros Hnd Hpos k. unfold evictCache. cbv zeta.
  assert (Hlen : List.length (cache_keys c) = List.length c) by apply length_map.
  rewrite !Hlen.
  replace (0 <? Z.of_nat (List.length c) - sizeLimit) with true
    by (symmetry; apply Z.ltb_lt; assumption).
  unfold Js.slice0. fold k.
  change (fold_left _ (List.rev (firstn k (cache_keys c))) (c, s))
    with (fold_left (evict_step onDelete) (List.rev (firstn k (cache_keys c))) (c, s)).
  rewrite evict_loop.
  - f_equal. rewrite <- (filter_oldest c k Hnd). apply filter_ext.
    intros kr. f_equal. apply mem_ext. symmetry. apply in_rev.
  - apply NoDup_rev, NoDup_firstn, Hnd.
  - intros key Hin. apply in_rev in Hin. exact (in_firstn _ _ _ Hin).
Qed.

Lemma evictCache_within_limit {S : Type} (c : Cache) (sizeLimit : Z)
    (onDelete : option (string -> S -> S)) (s : S) :
  Z.of_nat (List.length c) <= sizeLimit ->
  evictCache c sizeLimit onDelete s = (c, s).
Proof.
  intros H. unfold evictCache. cbv zeta.
  assert (Hlen : List.length (cache_keys c) = List.length c) by apply length_map.
  rewrite !Hlen.
  replace (0 <? Z.of_nat (List.length c) - sizeLimit) with false
    by (symmetry; apply Z.ltb_ge; lia).
  reflexivity.
Qed.

Lemma record_calls (ks calls : list string) :
  fold_left (call_onDelete (Some record_call)) ks calls = (calls ++ ks)%list.
Proof.
  revert calls. induction ks as [|k ks IH]; intros calls; cbn [fold_left].
  - symmetry. apply app_nil_r.
  - rewrite IH. unfold call_onDelete, record_call. rewrite <- app_assoc. reflexivity.
Qed.

(** C2.  On a store of [n] distinct keys, oldest first, and a limit
    [0 <= L]: when [k = n - L > 0], [evictCache] removes the [k] oldest
    records and keeps the [L] most recent ones as they are, and [onDelete] is
    called [k] times, once with each of the [k] oldest keys; when [n <= L]
    the store is unchanged and [onDelete] is not called. *)
Theorem evictCache_removes_oldest (c : Cache) (sizeLimit : Z) :
  NoDup (cache_keys c) -> 0 <= sizeLimit ->
  let n := Z.of_nat (List.length c) in
  let k := Z.to_nat (n - sizeLimit) in
  let result := evictCache c sizeLimit (Some record_call) [] in
  (0 < n - sizeLimit ->
     fst result = skipn k c
     /\ Z.of_nat (List.length (fst result)) = sizeLimit
     /\ snd result = List.rev (firstn k (cache_keys c))
     /\ List.length (snd result) = k
     /\ NoDup (snd result))
  /\ (n <= sizeLimit -> result = (c, [])).
Proof.
  intros Hnd HL n k result. split.
  - intros Hk. subst result.
    rewrite (evictCache_effect c sizeLimit (Some record_call) [] Hnd Hk).
    fold n. fold k. cbn [fst snd]. rewrite record_calls. rewrite app_nil_l.
    assert (Hkn : (k <= List.length c)%nat) by (subst k n; lia).
    repeat split.
    + rewrite length_skipn. subst k n. lia.
    + rewrite length_rev, length_firstn.
      unfold cache_keys. rewrite length_map. lia.
    + apply NoDup_rev, NoDup_firstn, Hnd.
  - intros Hn. subst result. apply evictCache_within_limit. exact Hn.
Qed.

Lemma evictCache_removes_oldest_witness :
  NoDup (cache_keys sample_cache) /\ 0 <= 1 /\
  let n := Z.of_nat (List.length sample_cache) in
  let k := Z.to_nat (n - 1) in
  let result := evictCache sample_cache 1 (Some record_call) [] in
  (0 < n - 1 ->
     fst result = skipn k sample_cache
     /\ Z.of_nat (List.length (fst result)) = 1
     /\ snd result = List.rev (firstn k (cache_keys sample_cache))
     /\ List.length (snd result) = k
     /\ NoDup (snd result))
  /\ (n <= 1 -> result = (sample_cache, [])).
Proof.
  assert (Hnd : NoDup (cache_keys sample_cache)).
  { repeat constructor; simpl; intuition discriminate. }
  split; [exact Hnd|]. split; [lia|].
  apply (evictCache_removes_oldest sample_cache 1 Hnd). lia.
Defined.

Example evictCache_sample :
  evictCache sample_cache 1 (Some record_call) []
  = ([("http://h/c.mp3", sample_resp)], ["http://h/b.mp3"; "http://h/a.mp3"]).
Proof. reflexivity. Qed.

(* ================================================================== *)
(** ** Request queue: properties *)

Lemma findIndex_none {A : Type} (p : A -> bool) (l : list A) :
  (forall x, In x l -> p x = false) -> Js.findIndex p l = -1.
Proof.
  induction l as [|x l IH]; intros H; cbn [Js.findIndex]; [reflexivity|].
  rewrite (H x (or_introl eq_refl)).
  rewrite IH by (intros y Hy; apply H; right; exact Hy).
  reflexivity.
Qed.

Lemma findIndex_bounds {A : Type} (p : A -> bool) (l : list A) :
  -1 <= Js.findIndex p l < Z.of_nat (List.length l).
Proof.
  induction l as [|x l IH]; cbn [Js.findIndex List.length]; [lia|].
  destruct (p x); [lia|].
  destruct (Z.ltb_spec (Js.findIndex p l) 0); lia.
Qed.

Lemma findIndex_found {A : Type} (p : A -> bool) (l : list A) :
  0 <= Js.findIndex p l ->
  exists x, nth_error l (Z.to_nat (Js.findIndex p l)) = Some x /\ p x = true.
Proof.
  induction l as [|x l IH]; cbn [Js.findIndex]; [lia|].
  destruct (p x) eqn:Px.
  - intros _. exists x. split; [reflexivity | exact Px].
  - destruct (Z.ltb_spec (Js.findIndex p l) 0) as [Hlt|Hge]; [lia|].
    intros _. destruct (IH Hge) as (y & Hy & Py). exists y. split; [|exact Py].
    replace (Z.to_nat (Js.findIndex p l + 1)) with (S (Z.to_nat (Js.findIndex p l))) by lia.
    exact Hy.
Qed.

(** [has] answers whether some entry carries the URL. *)
Lemma has_spec (q : list FetchQueueItem) (u : string) :
  AudioCache.has q u = true <-> exists i, In i q /\ url i = u.
Proof.
  unfold AudioCache.has. split.
  - intros H. apply Z.leb_le in H.
    destruct (findIndex_found _ _ H) as (i & Hi & Pi).
    exists i. split; [eapply nth_error_In; exact Hi | apply String.eqb_eq; exact Pi].
  - intros (i & Hin & Hu).
    destruct (Z.leb_spec 0 (Js.findIndex (fun i => String.eqb (url i) u) q)) as [|Hlt];
      [reflexivity|].
    exfalso. revert Hlt. induction q as [|x q IH]; [contradiction|].
    cbn [Js.findIndex]. destruct Hin as [->|Hin].
    + rewrite Hu, String.eqb_refl. lia.
    + destruct (String.eqb (url x) u); [lia|].
      destruct (Z.ltb_spec (Js.findIndex (fun i => String.eqb (url i) u) q) 0); [|lia].
      intros _. apply IH; assumption.
Qed.

Lemma has_false (q : list FetchQueueItem) (u : string) :
  AudioCache.has q u = false <-> (forall i, In i q -> url i <> u).
Proof.
  split.
  - intros H i Hin Hu.
    assert (AudioCache.has q u = true) by (apply has_spec; eauto). congruence.
  - intros H. destruct (AudioCache.has q u) eqn:E; [|reflexivity].
    apply has_spec in E. destruct E as (i & Hin & Hu). exfalso. eapply H; eauto.
Qed.

(** The loop of [add] over the queue. *)
Lemma add_loop (q : list FetchQueueItem) :
  forall log : list nat,
    fold_left
      (fun (l : list nat) (i : FetchQueueItem) =>
         if Js.truthy_bool (isDirect i) then (l ++ [abort i])%list else l)
      q log
    = (log ++ map abort (filter marked_direct q))%list.
Proof.
  induction q as [|i q IH]; intros log; cbn [fold_left filter map].
  - symmetry. apply app_nil_r.
  - rewrite IH. unfold marked_direct at 2.
    destruct (Js.truthy_bool (isDirect i)); cbn [map].
    + rewrite <- app_assoc. reflexivity.
    + reflexivity.
Qed.

(** C4.  An [add] with [isDirect] true calls [abort()] on the handle of each
    entry of the queue that is marked direct, once per entry and in queue
    order, and on nothing else: the entries it cancels are the direct ones,
    never one that is not marked direct. *)
Theorem add_direct_cancels_direct
    (q : list FetchQueueItem) (log : list nat)
    (u : string) (a : nat) (pos : option Z) :
  exists cancelled : list FetchQueueItem,
    snd (AudioCache.add q log u a (Some true) pos)
    = (log ++ map abort cancelled)%list
    /\ cancelled = filter marked_direct q
    /\ (forall i, In i cancelled <-> In i q /\ Js.truthy_bool (isDirect i) = true)
    /\ fst (AudioCache.add q log u a (Some true) pos)
       = (q ++ [mkFetchQueueItem u a (Some true) pos])%list.
Proof.
  exists (filter marked_direct q).
  split; [| split; [reflexivity | split; [| reflexivity]]].
  - unfold AudioCache.add. cbn [snd Js.truthy_bool]. apply add_loop.
  - intros i. unfold marked_direct. apply filter_In.
Qed.

(** C10.  An [add] with [isDirect] false or left out calls no [abort()], and
    the queue it leaves is the old queue followed by the new entry. *)
Theorem add_prefetch_frame
    (q : list FetchQueueItem) (log : list nat)
    (u : string) (a : nat) (pos : option Z) :
  AudioCache.add q log u a (Some false) pos
  = ((q ++ [mkFetchQueueItem u a (Some false) pos])%list, log)
  /\ AudioCache.add q log u a None pos
     = ((q ++ [mkFetchQueueItem u a None pos])%list, log)
  /\ firstn (List.length q) (fst (AudioCache.add q log u a (Some false) pos)) = q
  /\ firstn (List.length q) (fst (AudioCache.add q log u a None pos)) = q.
Proof.
  unfold AudioCache.add. cbn [Js.truthy_bool fst].
  repeat split; rewrite firstn_app, Nat.sub_diag, firstn_all; cbn [firstn];
    apply app_nil_r.
Qed.

(** C9.  [delete] of a URL that no entry of the queue carries leaves the
    queue as it is; the operation is total, so nothing is thrown. *)
Theorem delete_absent (q : list FetchQueueItem) (u : string) :
  (forall i, In i q -> url i <> u) ->
  AudioCache.delete q u = q.
Proof.
  intros H. unfold AudioCache.delete.
  rewrite findIndex_none.
  - reflexivity.
  - intros i Hi. apply String.eqb_neq. apply H. exact Hi.
Qed.

(* ================================================================== *)
(** ** Promise chains: stepping *)

Ltac run_chain :=
  cbv beta iota zeta delta
    [then_ catch_ detach ret throw settle console_log broadcastMessage
     new_AbortController fetch caches_open cache_match_ cache_put_
     AudioCache.has_ AudioCache.add_ AudioCache.delete_ AudioCache.add
     set_queue set_cache set_sent set_aborted set_fetched set_console
     set_fresh set_opened];
  cbn [queue cache sent aborted fetched console fresh opened fst snd].

(** A callback that leaves a part of its state alone leaves it alone
    through the whole of [evictCache]. *)
Lemma evictCache_preserves {S X : Type} (proj : S -> X)
    (onDelete : option (string -> S -> S)) :
  (forall f, onDelete = Some f -> forall key st, proj (f key st) = proj st) ->
  forall (c : Cache) (sizeLimit : Z) (s : S),
    proj (snd (evictCache c sizeLimit onDelete s)) = proj s.
Proof.
  intros Hcb c sizeLimit s. unfold evictCache. cbv zeta.
  destruct (0 <? _); [|reflexivity].
  generalize (List.rev (Js.slice0 (Z.of_nat (List.length (cache_keys c)) - sizeLimit)
                          (cache_keys c))).
  intros ks. revert c s.
  induction ks as [|k ks IH]; intros c s; cbn [fold_left]; [reflexivity|].
  destruct (cache_delete k (fst (c, s))) as [[|] c']; rewrite IH; cbn [snd].
  - destruct onDelete as [f|]; [apply (Hcb f eq_refl) | reflexivity].
  - reflexivity.
Qed.

(** Eviction with the controller's [Deleted] broadcast touches the store and
    the broadcast log only. *)
Lemma evict_broadcast_frame (sizeLimit : Z) (s : State) :
  let s' := snd (evictCache_ sizeLimit (Some AudioCache.broadcastDeleted) s) in
  queue s' = queue s /\ fetched s' = fetched s /\ aborted s' = aborted s.
Proof.
  cbv zeta. unfold evictCache_.
  destruct (evictCache _ _ _ _) as [c' s'] eqn:E. cbn [snd].
  assert (Hs : s' = snd (evictCache (cache s) sizeLimit
                           (option_map (fun f key st => snd (f key st))
                              (Some AudioCache.broadcastDeleted)) s))
    by (rewrite E; reflexivity).
  repeat split; rewrite Hs;
    [ change (queue (set_cache c' (snd ?x))) with (queue (snd x));
      apply (evictCache_preserves queue)
    | change (fetched (set_cache c' (snd ?x))) with (fetched (snd x));
      apply (evictCache_preserves fetched)
    | change (aborted (set_cache c' (snd ?x))) with (aborted (snd x));
      apply (evictCache_preserves aborted) ];
    intros f Hf key st; injection Hf as <-; reflexivity.
Qed.

(** The entry that [add] appended is the one [delete] removes, when no
    other entry carries its URL. *)
Lemma delete_added (q : list FetchQueueItem)
    (u : string) (a : nat) (direct : option bool) (pos : option Z) :
  AudioCache.has q u = false ->
  AudioCache.delete (q ++ [mkFetchQueueItem u a direct pos]) u = q.
Proof.
  intros H0. pose proof (proj1 (has_false q u) H0) as H. clear H0.
  unfold AudioCache.delete.
  assert (Hidx : Js.findIndex (fun i => String.eqb (url i) u)
                   (q ++ [mkFetchQueueItem u a direct pos])
                 = Z.of_nat (List.length q)).
  { induction q as [|x q IH].
    - simpl. rewrite String.eqb_refl. reflexivity.
    - change (Js.findIndex (fun i => String.eqb (url i) u)
                ((x :: q) ++ [mkFetchQueueItem u a direct pos]))
        with (if String.eqb (url x) u then 0
              else let i := Js.findIndex (fun i => String.eqb (url i) u)
                              (q ++ [mkFetchQueueItem u a direct pos]) in
                   if i <? 0 then -1 else i + 1).
      replace (String.eqb (url x) u) with false
        by (symmetry; apply String.eqb_neq, H; left; reflexivity).
      rewrite IH by (intros i Hi; apply H; right; exact Hi).
      cbv zeta. cbn [List.length].
      destruct (Z.ltb_spec (Z.of_nat (List.length q)) 0); lia. }
  cbv zeta. rewrite Hidx.
  replace (0 <=? Z.of_nat (List.length q)) with true
    by (symmetry; apply Z.leb_le; lia).
  unfold Js.splice1. rewrite Nat2Z.id.
  rewrite firstn_app, Nat.sub_diag, firstn_all. cbn [firstn].
  rewrite skipn_all2 by (rewrite length_app; cbn [List.length]; lia).
  rewrite !app_nil_r. reflexivity.
Qed.

(* ================================================================== *)
(** ** Audio cache controller: properties *)

Section AudioController.

Variable removeQuery : string -> string.
Variable toNumber : string -> option Z.
Variable env : Env.
Variable sizeLimit : Z.

Local Abbreviation handleRequest :=
  (AudioCache.handleRequest removeQuery toNumber env sizeLimit).
Local Abbreviation handlePrefetch :=
  (AudioCache.handlePrefetch removeQuery env sizeLimit).
Local Abbreviation direct_entry := (direct_entry removeQuery toNumber).

(** C8.  A prefetch whose normalized key is in the queue broadcasts
    [Skipped] with the key and the URL of the message, and does nothing
    else: no fetch, no change of the store, of the queue or of any
    cancellation handle. *)
Theorem handlePrefetch_skips_queued (msg : PrefetchMessage) (s : State) :
  AudioCache.has (queue s) (removeQuery (pm_url msg)) = true ->
  let r := handlePrefetch msg s in
  fst r = Fulfilled tt
  /\ sent (snd r)
     = (sent s ++ [mkCacheMessage Skipped (removeQuery (pm_url msg)) (pm_url msg) None])%list
  /\ fetched (snd r) = fetched s
  /\ cache (snd r) = cache s
  /\ queue (snd r) = queue s
  /\ aborted (snd r) = aborted s.
Proof.
  intros H r.
  assert (E : r = (Fulfilled tt,
                   set_sent (sent s ++ [mkCacheMessage Skipped (removeQuery (pm_url msg))
                                          (pm_url msg) None])%list
                     (set_console (console s ++ [(Debug, ("SW PREFETCH " ++ pm_url msg)%string)])%list
                        s))).
  { subst r. unfold AudioCache.handlePrefetch.
    run_chain. rewrite H. reflexivity. }
  rewrite E. cbn. repeat split.
Qed.

(** [handlePrefetch] releases the entry it registered however the fetch,
    the opening of the store and the write settle. *)
Lemma handlePrefetch_releases_entry (msg : PrefetchMessage) (s : State) :
  AudioCache.has (queue s) (removeQuery (pm_url msg)) = false ->
  queue (snd (handlePrefetch msg s)) = queue s.
Proof.
  intros H. unfold AudioCache.handlePrefetch.
  run_chain. rewrite H. cbv iota.
  destruct (net env _) as [resp|e]; cbv iota; [|cbn; apply delete_added; exact H].
  destruct (rs_ok resp); cbv iota; [|cbn; apply delete_added; exact H].
  destruct (opens env _); cbv iota; [|cbn; apply delete_added; exact H].
  destruct (puts env _ _); cbv iota; [cbn; apply delete_added; exact H|].
  cbn [queue fst snd].
  match goal with
  | |- context [queue (snd (evictCache_ ?l ?cb ?st))] =>
      rewrite (proj1 (evict_broadcast_frame l st))
  end.
  cbn [queue]. apply delete_added. exact H.
Qed.

(** When the fetch of [handleRequest] resolves, the response is served and
    the entry is released, whether the write to the store succeeds or not. *)
Lemma handleRequest_releases_entry (evt : Request) (s : State) (resp : Response) :
  opens env (opened s) = true ->
  cache_match (rq_url evt) (cache s) = None ->
  AudioCache.has (queue s) (removeQuery (rq_url evt)) = false ->
  net env (direct_request evt) = Fulfilled resp ->
  fst (handleRequest evt s) = Fulfilled resp
  /\ queue (snd (handleRequest evt s)) = queue s.
Proof.
  intros Hopen Hmiss Hq Hnet.
  unfold AudioCache.handleRequest, direct_request in *.
  run_chain. rewrite Hopen. run_chain. rewrite Hmiss. run_chain.
  rewrite Hq. run_chain.
  cbn [cloneRequest rq_url rq_headers rq_credentials headers_delete filter].
  rewrite Hnet. run_chain.
  destruct (puts env _ _) as [e|]; run_chain.
  - unfold logFetchError.
    assert (Hlog : forall (l : LogLevel) (m : string) (st : State),
               queue (snd (console_log l m st)) = queue st) by reflexivity.
    split; [reflexivity|].
    destruct e as [n m|n m|r]; cbn [fst snd];
      try (destruct (String.eqb_spec n "AbortError") as [->|Hn]);
      cbn; try (apply delete_added; exact Hq).
    all: repeat match goal with
           | |- context [match ?n with EmptyString => _ | String _ _ => _ end] =>
               destruct n; cbn
           | |- context [match ?a with Ascii _ _ _ _ _ _ _ _ => _ end] =>
               destruct a; cbn
           | |- context [if ?b then _ else _] => destruct b; cbn
           end; apply delete_added; exact Hq.
  - split; [reflexivity|]. cbn [queue fst snd].
    match goal with
    | |- context [queue (snd (evictCache_ ?l ?cb ?st))] =>
        rewrite (proj1 (evict_broadcast_frame l st))
    end.
    cbn [queue]. apply delete_added. exact Hq.
Qed.

(** C1 (the code departs from it).  When the fetch that [handleRequest]
    issues for a resource it is going to cache is rejected - a network
    failure, or an abort before the response arrives - the synthetic 555
    response is served and the entry registered for the fetch stays in the
    queue: nothing on that path calls [delete]. *)
Theorem handleRequest_keeps_entry_on_rejected_fetch
    (evt : Request) (s : State) (e : Thrown) :
  opens env (opened s) = true ->
  cache_match (rq_url evt) (cache s) = None ->
  AudioCache.has (queue s) (removeQuery (rq_url evt)) = false ->
  net env (direct_request evt) = Rejected e ->
  fst (handleRequest evt s) = Fulfilled cache_error_response
  /\ queue (snd (handleRequest evt s)) = (queue s ++ [direct_entry evt s])%list
  /\ AudioCache.has (queue (snd (handleRequest evt s))) (removeQuery (rq_url evt))
     = true.
Proof.
  intros Hopen Hmiss Hq Hnet.
  assert (E : fst (handleRequest evt s) = Fulfilled cache_error_response
              /\ queue (snd (handleRequest evt s))
                 = (queue s ++ [direct_entry evt s])%list).
  { unfold AudioCache.handleRequest, direct_request in *.
    run_chain. rewrite Hopen. run_chain. rewrite Hmiss. run_chain.
    rewrite Hq. run_chain.
    cbn [cloneRequest rq_url rq_headers rq_credentials headers_delete filter].
    rewrite Hnet. run_chain. split; reflexivity. }
  destruct E as [E1 E2]. rewrite E1, E2. repeat split.
  apply has_spec. exists (direct_entry evt s). split.
  - apply in_or_app. right. left. reflexivity.
  - reflexivity.
Qed.

(** The branch of [handleRequest] for a request that the lookup of the
    store does not find and whose normalized key is in the queue. *)
Lemma passthrough_on_lookup_miss (evt : Request) (s : State) :
  opens env (opened s) = true ->
  cache_match (rq_url evt) (cache s) = None ->
  AudioCache.has (queue s) (removeQuery (rq_url evt)) = true ->
  fst (handleRequest evt s)
  = Fulfilled match net env evt with
              | Fulfilled resp => resp
              | Rejected _ => cache_error_response
              end
  /\ fetched (snd (handleRequest evt s)) = (fetched s ++ [(evt, None)])%list
  /\ cache (snd (handleRequest evt s)) = cache s
  /\ queue (snd (handleRequest evt s)) = queue s
  /\ sent (snd (handleRequest evt s)) = sent s
  /\ aborted (snd (handleRequest evt s)) = aborted s.
Proof.
  intros Hopen Hmiss Hq. unfold AudioCache.handleRequest.
  run_chain. rewrite Hopen. run_chain. rewrite Hmiss. run_chain.
  rewrite Hq. run_chain.
  destruct (net env evt) as [resp|e]; run_chain; repeat split.
Qed.

(** In a store of normalized keys, a request whose normalized key is not
    in the store is not in the store itself. *)
Lemma normalized_miss (u : string) (c : Cache) :
  keys_normalized removeQuery c ->
  cache_match (removeQuery u) c = None ->
  cache_match u c = None.
Proof.
  intros Hnorm Hmiss. destruct (cache_match u c) as [r|] eqn:E; [|reflexivity].
  assert (Hin : In u (cache_keys c)).
  { clear - E. induction c as [|[k r0] c IH]; [discriminate|].
    cbn [cache_match] in E. destruct (String.eqb_spec k u) as [->|Hne].
    - left. reflexivity.
    - right. apply IH. exact E. }
  rewrite (Hnorm u Hin), E in Hmiss. discriminate.
Qed.

(** C5.  In a store of normalized keys, a request whose normalized key
    (query stripped) is not in the store and is in the queue goes to the
    network as it is, and the network's response is served unchanged (the
    synthetic 555 response if the fetch is rejected); nothing is written to
    the store, no entry is added, nothing is broadcast and no fetch is
    cancelled. *)
Theorem handleRequest_passthrough (evt : Request) (s : State) :
  keys_normalized removeQuery (cache s) ->
  opens env (opened s) = true ->
  cache_match (removeQuery (rq_url evt)) (cache s) = None ->
  AudioCache.has (queue s) (removeQuery (rq_url evt)) = true ->
  fst (handleRequest evt s)
  = Fulfilled match net env evt with
              | Fulfilled resp => resp
              | Rejected _ => cache_error_response
              end
  /\ fetched (snd (handleRequest evt s)) = (fetched s ++ [(evt, None)])%list
  /\ cache (snd (handleRequest evt s)) = cache s
  /\ queue (snd (handleRequest evt s)) = queue s
  /\ sent (snd (handleRequest evt s)) = sent s
  /\ aborted (snd (handleRequest evt s)) = aborted s.
Proof.
  intros Hnorm Hopen Hmiss Hq.
  apply passthrough_on_lookup_miss; [exact Hopen | | exact Hq].
  exact (normalized_miss (rq_url evt) (cache s) Hnorm Hmiss).
Qed.

(** A request found in the store is answered from the store: no fetch. *)
Lemma handleRequest_cached (evt : Request) (s : State) (resp : Response) :
  opens env (opened s) = true ->
  cache_match (rq_url evt) (cache s) = Some resp ->
  headers_get "range" (rq_headers evt) = None ->
  fst (handleRequest evt s) = Fulfilled resp
  /\ fetched (snd (handleRequest evt s)) = fetched s.
Proof.
  intros Hopen Hhit Hrange. unfold AudioCache.handleRequest.
  run_chain. rewrite Hopen. run_chain. rewrite Hhit. run_chain.
  rewrite Hrange. split; reflexivity.
Qed.

End AudioController.

(* ================================================================== *)
(** ** Network-first cache controller: properties *)

Section NetworkFirstController.

Variable env : Env.
Variable cacheName : string.
Variable sizeLimit : Z.

Local Abbreviation handleRequest :=
  (NetworkFirstCache.handleRequest env cacheName sizeLimit true).

(** What the enabled controller serves when the fetch failed. *)
Lemma networkFirst_failure (evt : Request) (s : State) :
  fetch_failed (net env evt) = true ->
  fst (handleRequest evt s)
  = Fulfilled
      (Some
         (let errorResponse :=
            match net env evt with
            | Fulfilled resp => resp
            | Rejected (ThrownResponse r) => r
            | Rejected e => network_error_response e
            end in
          if opens env (opened s)
          then match cache_match (rq_url evt) (cache s) with
               | Some cached => cached
               | None => errorResponse
               end
          else errorResponse)).
Proof.
  intros Hfail. unfold NetworkFirstCache.handleRequest, fetch_failed in *.
  cbn [negb]. run_chain.
  destruct (net env evt) as [resp|e]; run_chain.
  - rewrite Hfail. run_chain.
    destruct (opens env (opened s)); run_chain; [|reflexivity].
    destruct (cache_match (rq_url evt) (cache s)); reflexivity.
  - destruct (opens env (opened s)); run_chain.
    + destruct (cache_match (rq_url evt) (cache s)); run_chain;
        destruct e; reflexivity.
    + destruct e; reflexivity.
Qed.

(** C7.  When the fetch of the network-first controller fails - it is
    rejected, or it resolves with a status other than 200 - and the store,
    once opened, holds a record for the request, that record is served. *)
Theorem networkFirst_serves_cached_on_failure
    (evt : Request) (s : State) (cached : Response) :
  fetch_failed (net env evt) = true ->
  opens env (opened s) = true ->
  cache_match (rq_url evt) (cache s) = Some cached ->
  fst (handleRequest evt s) = Fulfilled (Some cached).
Proof.
  intros Hfail Hopen Hhit.
  rewrite (networkFirst_failure evt s Hfail), Hopen, Hhit. reflexivity.
Qed.

(** C6 (as amended).  When the fetch of the network-first controller
    resolves with status 404 and the store holds no record for the request,
    the 404 response itself is served, as the network gave it. *)
Theorem networkFirst_passes_404_through
    (evt : Request) (s : State) (resp : Response) :
  net env evt = Fulfilled resp ->
  rs_status resp = 404 ->
  cache_match (rq_url evt) (cache s) = None ->
  fst (handleRequest evt s) = Fulfilled (Some resp)
  /\ rs_status resp <> 555.
Proof.
  intros Hnet Hstatus Hmiss. split; [|lia].
  rewrite networkFirst_failure by (rewrite Hnet; cbn; rewrite Hstatus; reflexivity).
  rewrite Hnet, Hmiss. cbv zeta. destruct (opens env (opened s)); reflexivity.
Qed.

(** The synthetic 555 response is what a rejected fetch ends in when the
    store holds no record: a failure that is not a response. *)
Lemma networkFirst_synthesizes_555
    (evt : Request) (s : State) (name message : string) :
  net env evt = Rejected (ErrorObject name message) ->
  cache_match (rq_url evt) (cache s) = None ->
  fst (handleRequest evt s)
  = Fulfilled (Some (network_error_response (ErrorObject name message))).
Proof.
  intros Hnet Hmiss.
  rewrite networkFirst_failure by (rewrite Hnet; reflexivity).
  rewrite Hnet, Hmiss. cbv zeta. destruct (opens env (opened s)); reflexivity.
Qed.

(** A disabled controller leaves the event alone. *)
Lemma networkFirst_disabled (evt : Request) (s : State) :
  NetworkFirstCache.handleRequest env cacheName sizeLimit false evt s
  = (Fulfilled None, s).
Proof. reflexivity. Qed.

End NetworkFirstController.

(* ================================================================== *)
(** ** The properties at sample inputs *)

Lemma handleRequest_keeps_entry_on_rejected_fetch_witness :
  opens env_offline (opened (state_of [] [])) = true
  /\ cache_match (rq_url sample_evt) (cache (state_of [] [])) = None
  /\ AudioCache.has (queue (state_of [] [])) (removeQuery_model (rq_url sample_evt))
     = false
  /\ net env_offline (direct_request sample_evt)
     = Rejected (ErrorObject "TypeError" "Failed to fetch")
  /\ fst (AudioCache.handleRequest removeQuery_model toNumber_model env_offline 10
            sample_evt (state_of [] []))
     = Fulfilled cache_error_response
  /\ queue (snd (AudioCache.handleRequest removeQuery_model toNumber_model
                   env_offline 10 sample_evt (state_of [] [])))
     = ([] ++ [direct_entry removeQuery_model toNumber_model sample_evt
                 (state_of [] [])])%list
  /\ AudioCache.has
       (queue (snd (AudioCache.handleRequest removeQuery_model toNumber_model
                      env_offline 10 sample_evt (state_of [] []))))
       (removeQuery_model (rq_url sample_evt))
     = true.
Proof.
  do 4 (split; [reflexivity|]).
  exact (handleRequest_keeps_entry_on_rejected_fetch
           removeQuery_model toNumber_model env_offline 10
           sample_evt (state_of [] []) (ErrorObject "TypeError" "Failed to fetch")
           eq_refl eq_refl eq_refl eq_refl).
Defined.

(** After the rejected fetch the key stays queued: the next request for the
    track is passed through and never cached, a prefetch of it is skipped. *)
Example rejected_fetch_blocks_prefetch :
  let s1 := snd (AudioCache.handleRequest removeQuery_model toNumber_model
                   env_offline 10 sample_evt (state_of [] [])) in
  let s2 := snd (AudioCache.handlePrefetch removeQuery_model
                   (env_answering network_resp) 10
                   (mkPrefetchMessage "http://h/a.mp3?t=1" None) s1) in
  map kind (sent s2) = [Skipped] /\ cache s2 = [].
Proof. split; reflexivity. Qed.

Lemma removeQuery_model_idempotent (u : string) :
  removeQuery_model (removeQuery_model u) = removeQuery_model u.
Proof.
  induction u as [|c u IH]; [reflexivity|].
  cbn [removeQuery_model]. destruct (Ascii.eqb c "?") eqn:E; [reflexivity|].
  cbn [removeQuery_model]. rewrite E, IH. reflexivity.
Qed.

Lemma sample_cache_normalized : keys_normalized removeQuery_model sample_cache.
Proof. intros k [<-|[<-|[<-|[]]]]; reflexivity. Defined.

Lemma handleRequest_passthrough_witness :
  keys_normalized removeQuery_model (cache (state_of [queued_other] sample_cache))
  /\ opens (env_answering network_resp)
       (opened (state_of [queued_other] sample_cache)) = true
  /\ cache_match (removeQuery_model (rq_url other_evt))
       (cache (state_of [queued_other] sample_cache)) = None
  /\ AudioCache.has (queue (state_of [queued_other] sample_cache))
       (removeQuery_model (rq_url other_evt)) = true
  /\ fst (AudioCache.handleRequest removeQuery_model toNumber_model
            (env_answering network_resp) 10 other_evt
            (state_of [queued_other] sample_cache))
     = Fulfilled network_resp
  /\ fetched (snd (AudioCache.handleRequest removeQuery_model toNumber_model
                     (env_answering network_resp) 10 other_evt
                     (state_of [queued_other] sample_cache)))
     = ([] ++ [(other_evt, None)])%list
  /\ cache (snd (AudioCache.handleRequest removeQuery_model toNumber_model
                   (env_answering network_resp) 10 other_evt
                   (state_of [queued_other] sample_cache)))
     = sample_cache
  /\ queue (snd (AudioCache.handleRequest removeQuery_model toNumber_model
                   (env_answering network_resp) 10 other_evt
                   (state_of [queued_other] sample_cache)))
     = [queued_other]
  /\ sent (snd (AudioCache.handleRequest removeQuery_model toNumber_model
                  (env_answering network_resp) 10 other_evt
                  (state_of [queued_other] sample_cache)))
     = []
  /\ aborted (snd (AudioCache.handleRequest removeQuery_model toNumber_model
                     (env_answering network_resp) 10 other_evt
                     (state_of [queued_other] sample_cache)))
     = [].
Proof.
  split; [exact sample_cache_normalized|].
  do 3 (split; [reflexivity|]).
  exact (handleRequest_passthrough
           removeQuery_model toNumber_model (env_answering network_resp) 10
           other_evt (state_of [queued_other] sample_cache)
           sample_cache_normalized eq_refl eq_refl eq_refl).
Defined.

Lemma handlePrefetch_skips_queued_witness :
  AudioCache.has (queue (state_of [queued_prefetch] []))
    (removeQuery_model (pm_url (mkPrefetchMessage "http://h/a.mp3?t=1" None))) = true
  /\ let r := AudioCache.handlePrefetch removeQuery_model (env_answering network_resp)
                10 (mkPrefetchMessage "http://h/a.mp3?t=1" None)
                (state_of [queued_prefetch] []) in
     fst r = Fulfilled tt
     /\ sent (snd r)
        = ([] ++ [mkCacheMessage Skipped "http://h/a.mp3" "http://h/a.mp3?t=1" None])%list
     /\ fetched (snd r) = []
     /\ cache (snd r) = []
     /\ queue (snd r) = [queued_prefetch]
     /\ aborted (snd r) = [].
Proof.
  split; [reflexivity|].
  exact (handlePrefetch_skips_queued removeQuery_model (env_answering network_resp) 10
           (mkPrefetchMessage "http://h/a.mp3?t=1" None)
           (state_of [queued_prefetch] []) eq_refl).
Defined.

Lemma delete_absent_witness :
  (forall i, In i [queued_prefetch] -> url i <> "http://h/b.mp3")
  /\ AudioCache.delete [queued_prefetch] "http://h/b.mp3" = [queued_prefetch].
Proof.
  assert (H : forall i, In i [queued_prefetch] -> url i <> "http://h/b.mp3").
  { intros i [<-|[]]. simpl. discriminate. }
  split; [exact H|].
  exact (delete_absent [queued_prefetch] "http://h/b.mp3" H).
Defined.

Lemma networkFirst_serves_cached_on_failure_witness :
  fetch_failed (net (env_answering not_found) (mkRequest "http://h/api/folder" [] false))
  = true
  /\ opens (env_answering not_found)
       (opened (state_of [] [("http://h/api/folder", sample_resp)])) = true
  /\ cache_match "http://h/api/folder"
       (cache (state_of [] [("http://h/api/folder", sample_resp)])) = Some sample_resp
  /\ fst (NetworkFirstCache.handleRequest (env_answering not_found) "api" 1000 true
            (mkRequest "http://h/api/folder" [] false)
            (state_of [] [("http://h/api/folder", sample_resp)]))
     = Fulfilled (Some sample_resp).
Proof.
  do 3 (split; [reflexivity|]).
  exact (networkFirst_serves_cached_on_failure (env_answering not_found) "api" 1000
           (mkRequest "http://h/api/folder" [] false)
           (state_of [] [("http://h/api/folder", sample_resp)]) sample_resp
           eq_refl eq_refl eq_refl).
Defined.

Lemma networkFirst_passes_404_through_witness :
  net (env_answering not_found) (mkRequest "http://h/api/folder" [] false)
  = Fulfilled not_found
  /\ rs_status not_found = 404
  /\ cache_match "http://h/api/folder" (cache (state_of [] [])) = None
  /\ fst (NetworkFirstCache.handleRequest (env_answering not_found) "api" 1000 true
            (mkRequest "http://h/api/folder" [] false) (state_of [] []))
     = Fulfilled (Some not_found)
  /\ rs_status not_found <> 555.
Proof.
  do 3 (split; [reflexivity|]).
  exact (networkFirst_passes_404_through (env_answering not_found) "api" 1000
           (mkRequest "http://h/api/folder" [] false) (state_of [] []) not_found
           eq_refl eq_refl eq_refl).
Defined.

(** The claim of C6 as the specification words it fails: a fetch that
    resolves with 404, and an empty store, end in the 404 response, not in a
    response of status 555. *)
Lemma networkFirst_404_is_not_555 :
  ~ (exists served,
       fst (NetworkFirstCache.handleRequest (env_answering not_found) "api" 1000 true
              (mkRequest "http://h/api/folder" [] false) (state_of [] []))
       = Fulfilled (Some served)
       /\ rs_status served = 555).
Proof.
  intros (served & Hs & H555). vm_compute in Hs.
  injection Hs as <-. discriminate.
Qed.

(* ================================================================== *)
(** ** Range response builder: further properties *)

Lemma span_digits_stop (c : ascii) (rest : string) :
  Js.is_digit c = false ->
  Js.span_digits (String c rest) = (EmptyString, String c rest).
Proof. intros H. cbn [Js.span_digits]. rewrite H. reflexivity. Qed.

(** The pattern reads two runs of digits and lets go of what follows them. *)
Lemma exec_range_pattern_trailing (ds de : string) (c : ascii) (rest : string) :
  all_digits ds = true -> ds <> EmptyString ->
  all_digits de = true -> de <> EmptyString ->
  Js.is_digit c = false ->
  exec_range_pattern ("bytes=" ++ ds ++ "-" ++ de ++ String c rest)
  = Some (ds, Some de).
Proof.
  intros Hs Hsn He Hen Hc. unfold exec_range_pattern.
  change (Js.strip_prefix "bytes=" ("bytes=" ++ ds ++ "-" ++ de ++ String c rest))
    with (Some (ds ++ String "-" (de ++ String c rest))).
  cbv beta iota.
  rewrite (JsFacts.span_digits_app ds (String "-" (de ++ String c rest)) Hs eq_refl).
  rewrite (JsFacts.is_empty_false ds Hsn).
  rewrite (JsFacts.span_digits_app de (String c rest) He (span_digits_stop c rest Hc)).
  rewrite (JsFacts.is_empty_false de Hen). reflexivity.
Qed.

(** The pattern on a start alone, with or without the dash. *)
Lemma exec_range_pattern_open (ds : string) :
  all_digits ds = true -> ds <> EmptyString ->
  exec_range_pattern ("bytes=" ++ ds ++ "-") = Some (ds, None)
  /\ exec_range_pattern ("bytes=" ++ ds) = Some (ds, None).
Proof.
  intros Hs Hsn. unfold exec_range_pattern. split.
  - change (Js.strip_prefix "bytes=" ("bytes=" ++ ds ++ "-"))
      with (Some (ds ++ String "-" EmptyString)).
    cbv beta iota.
    rewrite (JsFacts.span_digits_app ds (String "-" EmptyString) Hs eq_refl).
    rewrite (JsFacts.is_empty_false ds Hsn). reflexivity.
  - change (Js.strip_prefix "bytes=" ("bytes=" ++ ds)) with (Some ds).
    cbv beta iota.
    rewrite (JsFacts.span_digits_all ds Hs), (JsFacts.is_empty_false ds Hsn).
    reflexivity.
Qed.

Lemma blob_slice_open (b : Blob) (S : Z) :
  0 <= S -> blob_slice b S None = skipn (Z.to_nat S) b.
Proof.
  intros HS. unfold blob_slice.
  replace (S <? 0) with false by (symmetry; apply Z.ltb_ge; lia).
  destruct (Z.le_gt_cases S (blob_size b)) as [Hle|Hgt].
  - replace (Z.min S (blob_size b)) with S by lia.
    apply firstn_all2. rewrite length_skipn. unfold blob_size in *. lia.
  - replace (Z.min S (blob_size b)) with (blob_size b) by lia.
    replace (Z.max (blob_size b - blob_size b) 0) with 0 by lia.
    rewrite (skipn_all2 (n := Z.to_nat S)) by (unfold blob_size in *; lia).
    reflexivity.
Qed.

Lemma buildResponse_of_parse (resp : Response) (r1 r2 : string) :
  Js.is_empty r1 = false -> Js.is_empty r2 = false ->
  parseRange r1 = parseRange r2 ->
  buildResponse resp (Some r1) = buildResponse resp (Some r2).
Proof.
  intros H1 H2 Hp. unfold buildResponse, Js.truthy_string.
  rewrite H1, H2. cbn [negb Js.String_of_nullable]. rewrite Hp. reflexivity.
Qed.

(** X1.  [parseRange] reads back what a header [bytes=S-E] spells: the start
    [S] and the end [E], for all safe integers, [0] included. *)
Theorem parseRange_round_trip (S E : Z) :
  0 <= S <= Js.MAX_SAFE_INTEGER -> 0 <= E <= Js.MAX_SAFE_INTEGER ->
  parseRange ("bytes=" ++ Js.String_of_number S ++ "-" ++ Js.String_of_number E)
  = Fulfilled (S, Some E).
Proof. intros HS HE. apply parseRange_S_E; lia. Qed.

Lemma parseRange_round_trip_witness :
  0 <= 12 <= Js.MAX_SAFE_INTEGER /\ 0 <= 0 <= Js.MAX_SAFE_INTEGER /\
  parseRange "bytes=12-0" = Fulfilled (12, Some 0).
Proof.
  assert (H12 : 0 <= 12 <= Js.MAX_SAFE_INTEGER) by (unfold Js.MAX_SAFE_INTEGER; lia).
  assert (H0 : 0 <= 0 <= Js.MAX_SAFE_INTEGER) by (unfold Js.MAX_SAFE_INTEGER; lia).
  split; [exact H12|]. split; [exact H0|].
  exact (parseRange_round_trip 12 0 H12 H0).
Defined.

Lemma buildResponse_open (resp : Response) (S : Z) :
  0 <= S ->
  buildResponse resp (Some ("bytes=" ++ Js.String_of_number S ++ "-"))
  = Fulfilled
      (mkResponse 206
         [("Content-Range",
           "bytes " ++ Js.String_of_number S ++ "-"
             ++ Js.String_of_number (blob_size (rs_body resp) - 1)
             ++ "/" ++ Js.String_of_number (blob_size (rs_body resp)));
          ("Content-Type",
           Js.String_of_nullable (headers_get "Content-Type" (rs_headers resp)))]
         (skipn (Z.to_nat S) (rs_body resp))
         "").
Proof.
  intros HS. unfold buildResponse.
  change (Js.truthy_string (Some ("bytes=" ++ Js.String_of_number S ++ "-")))
    with true.
  cbv beta iota. unfold Js.String_of_nullable at 1. unfold parseRange.
  rewrite (proj1 (exec_range_pattern_open (Js.String_of_number S)
                    (JsFacts.String_of_number_digits S HS)
                    (JsFacts.String_of_number_nonempty S HS))).
  cbn [Js.truthy_string Js.truthy_number].
  rewrite (JsFacts.Number_of_String S HS), (blob_slice_open _ S HS). reflexivity.
Qed.

(** X2.  A header [bytes=S-] (no end), for a safe integer [S] and a body
    of [N] bytes, [N] a safe integer, is answered with status 206, the
    header [Content-Range: bytes S-(N-1)/N] and the body from offset [S] to
    its end. *)
Theorem buildResponse_open_range (resp : Response) (S : Z) :
  0 <= S <= Js.MAX_SAFE_INTEGER ->
  blob_size (rs_body resp) <= Js.MAX_SAFE_INTEGER ->
  buildResponse resp (Some ("bytes=" ++ Js.String_of_number S ++ "-"))
  = Fulfilled
      (mkResponse 206
         [("Content-Range",
           "bytes " ++ Js.String_of_number S ++ "-"
             ++ Js.String_of_number (blob_size (rs_body resp) - 1)
             ++ "/" ++ Js.String_of_number (blob_size (rs_body resp)));
          ("Content-Type",
           Js.String_of_nullable (headers_get "Content-Type" (rs_headers resp)))]
         (skipn (Z.to_nat S) (rs_body resp))
         "").
Proof. intros HS _. apply buildResponse_open. lia. Qed.

Lemma buildResponse_open_range_witness :
  0 <= 2 <= Js.MAX_SAFE_INTEGER /\
  blob_size (rs_body sample_resp) <= Js.MAX_SAFE_INTEGER /\
  buildResponse sample_resp (Some "bytes=2-")
  = Fulfilled (mkResponse 206
                 [("Content-Range", "bytes 2-4/5"); ("Content-Type", "audio/mpeg")]
                 [x02; x03; x04]%byte "").
Proof.
  assert (H2 : 0 <= 2 <= Js.MAX_SAFE_INTEGER) by (unfold Js.MAX_SAFE_INTEGER; lia).
  assert (HN : blob_size (rs_body sample_resp) <= Js.MAX_SAFE_INTEGER)
    by (vm_compute; discriminate).
  split; [exact H2|]. split; [exact HN|].
  exact (buildResponse_open_range sample_resp 2 H2 HN).
Defined.

(** X3.  An end of [0], and a start without the dash, are answered as a
    header without an end: [bytes=S-0] and [bytes=S] get the response of
    [bytes=S-]. *)
Theorem buildResponse_end_zero_is_open (resp : Response) (S : Z) :
  0 <= S ->
  buildResponse resp (Some ("bytes=" ++ Js.String_of_number S ++ "-0"))
  = buildResponse resp (Some ("bytes=" ++ Js.String_of_number S ++ "-"))
  /\ buildResponse resp (Some ("bytes=" ++ Js.String_of_number S))
     = buildResponse resp (Some ("bytes=" ++ Js.String_of_number S ++ "-")).
Proof.
  intros HS. split.
  - change ("bytes=" ++ Js.String_of_number S ++ "-0")
      with ("bytes=" ++ Js.String_of_number S ++ "-" ++ Js.String_of_number 0).
    rewrite (buildResponse_S_E resp S 0 HS (Z.le_refl 0)).
    rewrite (buildResponse_open resp S HS).
    cbn [Z.eqb]. rewrite (blob_slice_open _ S HS). reflexivity.
  - apply buildResponse_of_parse; [reflexivity | reflexivity |].
    unfold parseRange.
    destruct (exec_range_pattern_open (Js.String_of_number S)
                (JsFacts.String_of_number_digits S HS)
                (JsFacts.String_of_number_nonempty S HS)) as [-> ->].
    reflexivity.
Qed.

Lemma buildResponse_end_zero_is_open_witness :
  0 <= 1 /\
  buildResponse sample_resp (Some "bytes=1-0")
  = buildResponse sample_resp (Some "bytes=1-")
  /\ buildResponse sample_resp (Some "bytes=1")
     = buildResponse sample_resp (Some "bytes=1-").
Proof.
  split; [lia|]. apply (buildResponse_end_zero_is_open sample_resp 1). lia.
Defined.

(** X4.  What follows the first range in the header is ignored: a header of
    several ranges, [bytes=S-E,...], is answered as [bytes=S-E]. *)
Theorem buildResponse_ignores_trailing
    (resp : Response) (S E : Z) (c : ascii) (rest : string) :
  0 <= S -> 0 <= E -> Js.is_digit c = false ->
  buildResponse resp
    (Some ("bytes=" ++ Js.String_of_number S ++ "-" ++ Js.String_of_number E
             ++ String c rest))
  = buildResponse resp
      (Some ("bytes=" ++ Js.String_of_number S ++ "-" ++ Js.String_of_number E)).
Proof.
  intros HS HE Hc. apply buildResponse_of_parse; [reflexivity | reflexivity |].
  rewrite (parseRange_S_E S E HS HE). unfold parseRange.
  rewrite exec_range_pattern_trailing
    by auto using JsFacts.String_of_number_digits, JsFacts.String_of_number_nonempty.
  unfold Js.truthy_string.
  rewrite (JsFacts.is_empty_false _ (JsFacts.String_of_number_nonempty E HE)).
  cbn [negb option_map]. rewrite !JsFacts.Number_of_String by assumption.
  reflexivity.
Qed.

Lemma buildResponse_ignores_trailing_witness :
  0 <= 1 /\ 0 <= 2 /\ Js.is_digit "," = false /\
  buildResponse sample_resp (Some "bytes=1-2,4-4")
  = buildResponse sample_resp (Some "bytes=1-2").
Proof.
  split; [lia|]. split; [lia|]. split; [reflexivity|].
  apply (buildResponse_ignores_trailing sample_resp 1 2 "," "4-4");
    [lia | lia | reflexivity].
Defined.

(** X5.  A header that does not put a digit after [bytes=] - a suffix range
    [bytes=-500] among them - makes the builder reject: [parseRange] reads a
    group of a match that failed. *)
Theorem buildResponse_rejects_without_start
    (resp : Response) (c : ascii) (rest : string) :
  Js.is_digit c = false ->
  exists e, buildResponse resp (Some ("bytes=" ++ String c rest)) = Rejected e.
Proof.
  intros Hc. eexists. unfold buildResponse.
  change (Js.truthy_string (Some ("bytes=" ++ String c rest))) with true.
  cbv beta iota. unfold Js.String_of_nullable at 1.
  unfold parseRange, exec_range_pattern.
  change (Js.strip_prefix "bytes=" ("bytes=" ++ String c rest))
    with (Some (String c rest)).
  cbv beta iota. rewrite (span_digits_stop c rest Hc). reflexivity.
Qed.

Lemma buildResponse_rejects_without_start_witness :
  Js.is_digit "-" = false /\
  exists e, buildResponse sample_resp (Some "bytes=-500") = Rejected e.
Proof.
  split; [reflexivity|].
  apply (buildResponse_rejects_without_start sample_resp "-" "500"). reflexivity.
Defined.

(** X6.  A range that starts at or beyond the end of the body, or whose end
    lies before its start, is answered with status 206 and an empty body;
    the header still reads [bytes S-E/N] ([S], [E] and [N] safe
    integers). *)
Theorem buildResponse_empty_slice (resp : Response) (S E : Z) :
  0 <= S <= Js.MAX_SAFE_INTEGER ->
  1 <= E <= Js.MAX_SAFE_INTEGER ->
  blob_size (rs_body resp) <= Js.MAX_SAFE_INTEGER ->
  blob_size (rs_body resp) <= S \/ E < S ->
  exists out,
    buildResponse resp
      (Some ("bytes=" ++ Js.String_of_number S ++ "-" ++ Js.String_of_number E))
    = Fulfilled out
    /\ rs_status out = 206
    /\ rs_body out = []
    /\ headers_get "Content-Range" (rs_headers out)
       = Some ("bytes " ++ Js.String_of_number S ++ "-" ++ Js.String_of_number E
                 ++ "/" ++ Js.String_of_number (blob_size (rs_body resp))).
Proof.
  intros HS HE _ Hout. eexists. split.
  - rewrite buildResponse_S_E by lia.
    replace (E =? 0) with false by (symmetry; apply Z.eqb_neq; lia).
    reflexivity.
  - cbn [rs_status rs_body rs_headers]. repeat split.
    unfold blob_slice.
    replace (S <? 0) with false by (symmetry; apply Z.ltb_ge; lia).
    replace (E + 1 <? 0) with false by (symmetry; apply Z.ltb_ge; lia).
    replace (Z.max (Z.min (E + 1) (blob_size (rs_body resp))
                    - Z.min S (blob_size (rs_body resp))) 0) with 0 by lia.
    reflexivity.
Qed.

Lemma buildResponse_empty_slice_witness :
  0 <= 7 <= Js.MAX_SAFE_INTEGER /\ 1 <= 9 <= Js.MAX_SAFE_INTEGER /\
  blob_size (rs_body sample_resp) <= Js.MAX_SAFE_INTEGER /\
  (blob_size (rs_body sample_resp) <= 7 \/ 9 < 7) /\
  exists out,
    buildResponse sample_resp (Some "bytes=7-9") = Fulfilled out
    /\ rs_status out = 206
    /\ rs_body out = []
    /\ headers_get "Content-Range" (rs_headers out) = Some "bytes 7-9/5".
Proof.
  assert (H7 : 0 <= 7 <= Js.MAX_SAFE_INTEGER) by (unfold Js.MAX_SAFE_INTEGER; lia).
  assert (H9 : 1 <= 9 <= Js.MAX_SAFE_INTEGER) by (unfold Js.MAX_SAFE_INTEGER; lia).
  assert (HN : blob_size (rs_body sample_resp) <= Js.MAX_SAFE_INTEGER)
    by (vm_compute; discriminate).
  assert (H : blob_size (rs_body sample_resp) <= 7 \/ 9 < 7)
    by (left; vm_compute; discriminate).
  split; [exact H7|]. split; [exact H9|]. split; [exact HN|]. split; [exact H|].
  exact (buildResponse_empty_slice sample_resp 7 9 H7 H9 HN H).
Defined.

(* ================================================================== *)
(** ** Eviction policy: further properties *)

(** The store after the loop of [evictCache], whatever the store holds and
    whatever the callback does. *)
Lemma evict_loop_store {S : Type} (onDelete : option (string -> S -> S))
    (ks : list string) :
  forall (c : Cache) (s : S),
    fst (fold_left (evict_step onDelete) ks (c, s))
    = filter (fun kr => negb (mem (fst kr) ks)) c.
Proof.
  induction ks as [|key ks IH]; intros c s; cbn [fold_left].
  - cbn [fst]. symmetry. apply filter_all. reflexivity.
  - unfold evict_step at 2. cbn [fst snd]. unfold cache_delete.
    destruct (existsb _ c); rewrite IH; apply filter_deleted.
Qed.

(** The keys [evictCache] asks the store to delete. *)
Lemma evictCache_store {S : Type} (c : Cache) (sizeLimit : Z)
    (onDelete : option (string -> S -> S)) (s : S) :
  fst (evictCache c sizeLimit onDelete s)
  = filter
      (fun kr =>
         negb (mem (fst kr)
                 (if 0 <? Z.of_nat (List.length c) - sizeLimit
                  then firstn (evict_count c sizeLimit) (cache_keys c)
                  else [])))
      c.
Proof.
  unfold evictCache, evict_count. cbv zeta.
  assert (Hlen : List.length (cache_keys c) = List.length c) by apply length_map.
  rewrite !Hlen.
  destruct (0 <? Z.of_nat (List.length c) - sizeLimit).
  - change (fold_left _ ?ks (c, s)) with (fold_left (evict_step onDelete) ks (c, s)).
    rewrite evict_loop_store. apply filter_ext.
    intros kr. f_equal. apply mem_ext. symmetry. apply in_rev.
  - cbn [fst]. symmetry. apply filter_all. reflexivity.
Qed.

Lemma filter_oldest_prefix (c : Cache) (n : nat) :
  filter (fun kr => negb (mem (fst kr) (firstn n (cache_keys c)))) (firstn n c) = [].
Proof.
  assert (H : forall kr, In kr (firstn n c) ->
                         negb (mem (fst kr) (firstn n (cache_keys c))) = false).
  { intros kr Hin. apply negb_false_iff, mem_In.
    unfold cache_keys. rewrite firstn_map. apply in_map. exact Hin. }
  induction (firstn n c) as [|x l IH]; [reflexivity|].
  cbn [filter]. rewrite (H x (or_introl eq_refl)).
  apply IH. intros kr Hin. apply H. right. exact Hin.
Qed.

Lemma evict_leaves_at_most {S : Type} (c : Cache) (sizeLimit : Z)
    (onDelete : option (string -> S -> S)) (s : S) :
  0 <= sizeLimit ->
  Z.of_nat (List.length (fst (evictCache c sizeLimit onDelete s))) <= sizeLimit.
Proof.
  intros HL. rewrite evictCache_store.
  destruct (Z.ltb_spec 0 (Z.of_nat (List.length c) - sizeLimit)) as [Hpos|Hle].
  - set (p := fun kr : string * Response =>
                negb (mem (fst kr) (firstn (evict_count c sizeLimit) (cache_keys c)))).
    replace (filter p c)
      with (filter p (firstn (evict_count c sizeLimit) c
                        ++ skipn (evict_count c sizeLimit) c)%list)
      by (rewrite firstn_skipn; reflexivity).
    subst p. rewrite filter_app, filter_oldest_prefix, app_nil_l.
    pose proof (filter_length_le
                  (fun kr => negb (mem (fst kr)
                                     (firstn (evict_count c sizeLimit) (cache_keys c))))
                  (skipn (evict_count c sizeLimit) c)) as Hf.
    rewrite length_skipn in Hf. unfold evict_count in *. lia.
  - pose proof (filter_length_le
                  (fun kr : string * Response => negb (mem (fst kr) [])) c). lia.
Qed.

(** X7.  Whatever the store holds - repeated keys included - and whatever
    the callback does, [evictCache] with a limit [0 <= L] leaves at most [L]
    records, and every record it leaves was in the store before. *)
Theorem evictCache_within_limit_after {S : Type} (c : Cache) (sizeLimit : Z)
    (onDelete : option (string -> S -> S)) (s : S) :
  0 <= sizeLimit ->
  Z.of_nat (List.length (fst (evictCache c sizeLimit onDelete s))) <= sizeLimit
  /\ forall kr, In kr (fst (evictCache c sizeLimit onDelete s)) -> In kr c.
Proof.
  intros HL.
  assert (Hsub : forall kr, In kr (fst (evictCache c sizeLimit onDelete s)) -> In kr c).
  { intros kr. rewrite evictCache_store. intros H. apply filter_In in H. tauto. }
  assert (Hlen := evict_leaves_at_most c sizeLimit onDelete s HL).
  split; [exact Hlen | exact Hsub].
Qed.

Lemma evictCache_within_limit_after_witness :
  0 <= 2 /\
  Z.of_nat (List.length (fst (evictCache sample_cache 2 (Some record_call) []))) <= 2
  /\ forall kr, In kr (fst (evictCache sample_cache 2 (Some record_call) [])) ->
                In kr sample_cache.
Proof.
  split; [lia|].
  apply (evictCache_within_limit_after sample_cache 2 (Some record_call) []). lia.
Defined.

(** X8.  Evicting again changes nothing: after [evictCache], a second
    [evictCache] with the same limit leaves the store as it is and calls no
    callback, for every store, limit and pair of callbacks. *)
Theorem evictCache_twice {S T : Type} (c : Cache) (sizeLimit : Z)
    (onDelete : option (string -> S -> S)) (s : S)
    (onDelete' : option (string -> T -> T)) (t : T) :
  evictCache (fst (evictCache c sizeLimit onDelete s)) sizeLimit onDelete' t
  = (fst (evictCache c sizeLimit onDelete s), t).
Proof.
  destruct (Z.le_gt_cases 0 sizeLimit) as [HL|HL].
  - apply evictCache_within_limit.
    apply (evict_leaves_at_most c sizeLimit onDelete s HL).
  - assert (E : fst (evictCache c sizeLimit onDelete s) = []).
    { rewrite evictCache_store.
      replace (0 <? Z.of_nat (List.length c) - sizeLimit) with true
        by (symmetry; apply Z.ltb_lt; lia).
      rewrite firstn_all2
        by (unfold cache_keys, evict_count; rewrite length_map; lia).
      assert (H : forall kr, In kr c -> negb (mem (fst kr) (cache_keys c)) = false).
      { intros kr Hin. apply negb_false_iff, mem_In. apply in_map. exact Hin. }
      induction c as [|x c IH]; [reflexivity|].
      cbn [filter]. rewrite (H x (or_introl eq_refl)).
      clear IH. revert H. generalize (cache_keys (x :: c)). intros ks H.
      assert (H' : forall kr, In kr c -> negb (mem (fst kr) ks) = false)
        by (intros kr Hin; apply H; right; exact Hin).
      clear H. induction c as [|y c IH]; [reflexivity|].
      cbn [filter]. rewrite (H' y (or_introl eq_refl)).
      apply IH. intros kr Hin. apply H'. right. exact Hin. }
    rewrite E. unfold evictCache, Js.slice0. cbn [cache_keys map List.length].
    rewrite firstn_nil. destruct (0 <? _); reflexivity.
Qed.

Lemma cache_match_only (key : string) (r : Response) (c : Cache) :
  (forall r', In (key, r') c -> r' = r) ->
  In (key, r) c ->
  cache_match key c = Some r.
Proof.
  induction c as [|[k r0] c IH]; intros Hall Hin; [contradiction|].
  cbn [cache_match]. destruct (String.eqb_spec k key) as [->|Hne].
  - f_equal. apply Hall. left. reflexivity.
  - apply IH.
    + intros r' H. apply Hall. right. exact H.
    + destruct Hin as [E|Hin]; [congruence | exact Hin].
Qed.

Lemma cache_put_only (key : string) (r r' : Response) (c : Cache) :
  In (key, r') (cache_put key r c) -> r' = r.
Proof.
  unfold cache_put. intros H. apply in_app_or in H. destruct H as [H|[H|[]]].
  - apply filter_In in H. destruct H as [_ H]. cbn [fst] in H.
    rewrite String.eqb_refl in H. discriminate.
  - congruence.
Qed.

Lemma match_after_put_evict {S : Type} (key : string) (r : Response)
    (c : Cache) (sizeLimit : Z) (onDelete : option (string -> S -> S)) (s : S) :
  1 <= sizeLimit ->
  cache_match key (fst (evictCache (cache_put key r c) sizeLimit onDelete s))
  = Some r.
Proof.
  intros HL. rewrite evictCache_store. apply cache_match_only.
  - intros r' H. apply filter_In in H. destruct H as [H _].
    exact (cache_put_only key r r' c H).
  - apply filter_In. split.
    + unfold cache_put. apply in_or_app. right. left. reflexivity.
    + cbn [fst]. apply negb_true_iff.
      destruct (0 <? _) eqn:Epos; [|reflexivity].
      destruct (mem key _) eqn:Em; [|reflexivity]. exfalso.
      apply mem_In in Em. unfold cache_put, cache_keys, evict_count in Em.
      rewrite length_app, map_app in Em. cbn [List.length map fst] in Em.
      rewrite firstn_app in Em.
      replace (Z.to_nat (Z.of_nat (List.length (filter (fun kr => negb (String.eqb (fst kr) key)) c) + 1) - sizeLimit)
               - List.length (map fst (filter (fun kr => negb (String.eqb (fst kr) key)) c)))%nat
        with 0%nat in Em by (rewrite length_map; lia).
      cbn [firstn] in Em. rewrite app_nil_r in Em.
      apply in_firstn in Em. apply in_map_iff in Em.
      destruct Em as (kr & Ek & Hin). apply filter_In in Hin.
      destruct Hin as [_ Hne]. rewrite Ek, String.eqb_refl in Hne. discriminate.
Qed.

(** X9.  A record stored with [cache.put] survives the eviction that
    follows when the limit is at least 1: the lookup of its key gives the
    response just stored, for every store. *)
Theorem put_survives_eviction {S : Type} (key : string) (r : Response)
    (c : Cache) (sizeLimit : Z) (onDelete : option (string -> S -> S)) (s : S) :
  1 <= sizeLimit ->
  cache_match key (fst (evictCache (cache_put key r c) sizeLimit onDelete s))
  = Some r.
Proof. apply match_after_put_evict. Qed.

Lemma put_survives_eviction_witness :
  1 <= 1 /\
  cache_match "http://h/d.mp3"
    (fst (evictCache (cache_put "http://h/d.mp3" network_resp sample_cache) 1
            (Some record_call) []))
  = Some network_resp.
Proof.
  split; [lia|].
  apply (put_survives_eviction "http://h/d.mp3" network_resp sample_cache 1
           (Some record_call) []). lia.
Defined.

(* ================================================================== *)
(** ** Request queue: further properties *)

Lemma has_cons (x : FetchQueueItem) (q : list FetchQueueItem) (u : string) :
  AudioCache.has (x :: q) u = (String.eqb (url x) u || AudioCache.has q u)%bool.
Proof.
  unfold AudioCache.has. cbn [Js.findIndex].
  destruct (String.eqb (url x) u); [reflexivity|]. cbn [orb].
  pose proof (findIndex_bounds (fun i => String.eqb (url i) u) q) as Hb.
  destruct (Z.ltb_spec (Js.findIndex (fun i => String.eqb (url i) u) q) 0) as [Hlt|Hge].
  - symmetry. apply Z.leb_gt. exact Hlt.
  - rewrite (proj2 (Z.leb_le 0 _) Hge). apply Z.leb_le. lia.
Qed.

(** [delete] takes out the first entry that carries the URL. *)
Lemma delete_cons (x : FetchQueueItem) (q : list FetchQueueItem) (u : string) :
  AudioCache.delete (x :: q) u
  = if String.eqb (url x) u then q else x :: AudioCache.delete q u.
Proof.
  unfold AudioCache.delete. cbn [Js.findIndex]. cbv zeta.
  destruct (String.eqb (url x) u); [reflexivity|].
  pose proof (findIndex_bounds (fun i => String.eqb (url i) u) q) as Hb.
  destruct (Z.ltb_spec (Js.findIndex (fun i => String.eqb (url i) u) q) 0) as [Hlt|Hge].
  - replace (0 <=? Js.findIndex (fun i => String.eqb (url i) u) q) with false
      by (symmetry; apply Z.leb_gt; exact Hlt).
    reflexivity.
  - replace (0 <=? Js.findIndex (fun i => String.eqb (url i) u) q) with true
      by (symmetry; apply Z.leb_le; exact Hge).
    replace (0 <=? Js.findIndex (fun i => String.eqb (url i) u) q + 1) with true
      by (symmetry; apply Z.leb_le; lia).
    unfold Js.splice1.
    replace (Z.to_nat (Js.findIndex (fun i => String.eqb (url i) u) q + 1))
      with (S (Z.to_nat (Js.findIndex (fun i => String.eqb (url i) u) q))) by lia.
    reflexivity.
Qed.

Lemma has_app (q1 q2 : list FetchQueueItem) (u : string) :
  AudioCache.has (q1 ++ q2) u = (AudioCache.has q1 u || AudioCache.has q2 u)%bool.
Proof.
  induction q1 as [|x q1 IH]; [reflexivity|].
  cbn [List.app]. rewrite !has_cons, IH. apply orb_assoc.
Qed.

(** X10.  After [add] the URL is in the queue, and the answer of [has] for
    every other URL is what it was. *)
Theorem has_after_add (q : list FetchQueueItem) (log : list nat)
    (u v : string) (a : nat) (direct : option bool) (pos : option Z) :
  AudioCache.has (fst (AudioCache.add q log u a direct pos)) u = true
  /\ (v <> u ->
      AudioCache.has (fst (AudioCache.add q log u a direct pos)) v
      = AudioCache.has q v).
Proof.
  unfold AudioCache.add. cbn [fst]. rewrite !has_app, !has_cons. cbn [url].
  split.
  - rewrite String.eqb_refl. cbn [orb]. apply orb_true_r.
  - intros Hne. replace (String.eqb u v) with false
      by (symmetry; apply String.eqb_neq; congruence).
    cbn [orb]. unfold AudioCache.has at 2. cbn [Js.findIndex].
    replace (0 <=? -1) with false by reflexivity. apply orb_false_r.
Qed.

Lemma has_after_add_witness :
  AudioCache.has (fst (AudioCache.add [queued_prefetch] [] "http://h/b.mp3" 1
                         (Some true) None)) "http://h/b.mp3" = true
  /\ ("http://h/c.mp3" <> "http://h/b.mp3" ->
      AudioCache.has (fst (AudioCache.add [queued_prefetch] [] "http://h/b.mp3" 1
                             (Some true) None)) "http://h/c.mp3"
      = AudioCache.has [queued_prefetch] "http://h/c.mp3").
Proof.
  exact (has_after_add [queued_prefetch] [] "http://h/b.mp3" "http://h/c.mp3" 1
           (Some true) None).
Defined.

(** X11.  [delete] of one URL leaves the entries of every other URL in the
    queue, in their order, and so the answer of [has] for them. *)
Theorem delete_keeps_others (q : list FetchQueueItem) (u v : string) :
  v <> u ->
  filter (fun i => negb (String.eqb (url i) u)) (AudioCache.delete q u)
  = filter (fun i => negb (String.eqb (url i) u)) q
  /\ AudioCache.has (AudioCache.delete q u) v = AudioCache.has q v.
Proof.
  intros Hne. induction q as [|x q [IH1 IH2]]; [split; reflexivity|].
  rewrite delete_cons. destruct (String.eqb (url x) u) eqn:E.
  - split.
    + cbn [filter]. rewrite E. reflexivity.
    + rewrite has_cons. apply String.eqb_eq in E.
      replace (String.eqb (url x) v) with false
        by (symmetry; apply String.eqb_neq; congruence).
      reflexivity.
  - split.
    + cbn [filter]. rewrite E. cbn [negb]. f_equal. exact IH1.
    + rewrite !has_cons, IH2. reflexivity.
Qed.

Lemma delete_keeps_others_witness :
  "http://h/a.mp3" <> "http://h/b.mp3" /\
  filter (fun i => negb (String.eqb (url i) "http://h/b.mp3"))
    (AudioCache.delete [queued_prefetch] "http://h/b.mp3")
  = filter (fun i => negb (String.eqb (url i) "http://h/b.mp3")) [queued_prefetch]
  /\ AudioCache.has (AudioCache.delete [queued_prefetch] "http://h/b.mp3")
       "http://h/a.mp3"
     = AudioCache.has [queued_prefetch] "http://h/a.mp3".
Proof.
  assert (H : "http://h/a.mp3" <> "http://h/b.mp3") by discriminate.
  split; [exact H|].
  exact (delete_keeps_others [queued_prefetch] "http://h/b.mp3" "http://h/a.mp3" H).
Defined.

(** X12.  [delete] of a URL that is in the queue takes out one entry, the
    first that carries the URL; a later entry with the same URL stays. *)
Theorem delete_removes_first (q : list FetchQueueItem) (u : string) :
  AudioCache.has q u = true ->
  exists q1 i q2,
    q = (q1 ++ i :: q2)%list
    /\ url i = u
    /\ (forall j, In j q1 -> url j <> u)
    /\ AudioCache.delete q u = (q1 ++ q2)%list.
Proof.
  induction q as [|x q IH]; intros H.
  - discriminate.
  - rewrite has_cons in H. rewrite delete_cons.
    destruct (String.eqb_spec (url x) u) as [E|Hne].
    + exists [], x, q. repeat split; [exact E | intros j []].
    + cbn [orb] in H. destruct (IH H) as (q1 & i & q2 & -> & Hi & Hq1 & Hd).
      exists (x :: q1), i, q2. repeat split.
      * exact Hi.
      * intros j [<-|Hj]; [exact Hne | apply Hq1; exact Hj].
      * rewrite Hd. reflexivity.
Qed.

Lemma delete_removes_first_witness :
  AudioCache.has [queued_prefetch; queued_prefetch] "http://h/a.mp3" = true /\
  exists q1 i q2,
    [queued_prefetch; queued_prefetch] = (q1 ++ i :: q2)%list
    /\ url i = "http://h/a.mp3"
    /\ (forall j, In j q1 -> url j <> "http://h/a.mp3")
    /\ AudioCache.delete [queued_prefetch; queued_prefetch] "http://h/a.mp3"
       = (q1 ++ q2)%list.
Proof.
  split; [reflexivity|].
  exact (delete_removes_first [queued_prefetch; queued_prefetch] "http://h/a.mp3"
           eq_refl).
Defined.

Lemma delete_in (q : list FetchQueueItem) (u : string) (i : FetchQueueItem) :
  In i (AudioCache.delete q u) -> In i q.
Proof.
  induction q as [|x q IH]; [intros []|].
  rewrite delete_cons. destruct (String.eqb (url x) u).
  - intros H. right. exact H.
  - intros [<-|H]; [left; reflexivity | right; apply IH; exact H].
Qed.

Lemma delete_unique (q : list FetchQueueItem) (u : string) :
  NoDup (map url q) ->
  NoDup (map url (AudioCache.delete q u))
  /\ AudioCache.has (AudioCache.delete q u) u = false.
Proof.
  induction q as [|x q IH]; intros Hnd; [split; [constructor | reflexivity]|].
  inversion Hnd as [|? ? Hx Hq]; subst. rewrite delete_cons.
  destruct (String.eqb_spec (url x) u) as [E|Hne].
  - split; [exact Hq|]. apply has_false. intros i Hi Hu. apply Hx.
    rewrite E, <- Hu. apply in_map. exact Hi.
  - destruct (IH Hq) as [IH1 IH2]. split.
    + cbn [map]. constructor; [|exact IH1].
      intros Hin. apply Hx. apply in_map_iff in Hin.
      destruct Hin as (j & Ej & Hj). rewrite <- Ej. apply in_map.
      exact (delete_in q u j Hj).
    + rewrite has_cons, IH2. apply orb_false_iff. split; [|reflexivity].
      apply String.eqb_neq. exact Hne.
Qed.

Lemma add_unique (q : list FetchQueueItem) (log : list nat)
    (u : string) (a : nat) (direct : option bool) (pos : option Z) :
  NoDup (map url q) -> AudioCache.has q u = false ->
  NoDup (map url (fst (AudioCache.add q log u a direct pos))).
Proof.
  intros Hnd Hq. unfold AudioCache.add. cbn [fst].
  rewrite map_app. cbn [map url].
  pose proof (proj1 (has_false q u) Hq) as Hall.
  clear Hq. induction q as [|x q IH]; cbn [map List.app].
  - constructor; [intros [] | constructor].
  - inversion Hnd as [|? ? Hx Hnd']; subst. constructor.
    + intros Hin. apply in_app_or in Hin. destruct Hin as [Hin|[Hin|[]]].
      * exact (Hx Hin).
      * apply (Hall x (or_introl eq_refl)). symmetry. exact Hin.
    + apply IH; [exact Hnd'|]. intros i Hi. apply Hall. right. exact Hi.
Qed.

(** X13.  Queues in which no two entries carry the same URL stay so: under
    [delete], and under [add] of a URL that [has] does not find; in such a
    queue the URL is gone after [delete]. *)
Theorem queue_urls_stay_unique (q : list FetchQueueItem) (log : list nat)
    (u : string) (a : nat) (direct : option bool) (pos : option Z) :
  NoDup (map url q) ->
  NoDup (map url (AudioCache.delete q u))
  /\ AudioCache.has (AudioCache.delete q u) u = false
  /\ (AudioCache.has q u = false ->
      NoDup (map url (fst (AudioCache.add q log u a direct pos)))).
Proof.
  intros Hnd. destruct (delete_unique q u Hnd) as [H1 H2].
  repeat split; [exact H1 | exact H2 |].
  intros Hq. exact (add_unique q log u a direct pos Hnd Hq).
Qed.

Lemma queue_urls_stay_unique_witness :
  NoDup (map url [queued_prefetch]) /\
  NoDup (map url (AudioCache.delete [queued_prefetch] "http://h/a.mp3"))
  /\ AudioCache.has (AudioCache.delete [queued_prefetch] "http://h/a.mp3")
       "http://h/a.mp3" = false
  /\ (AudioCache.has [queued_prefetch] "http://h/a.mp3" = false ->
      NoDup (map url (fst (AudioCache.add [queued_prefetch] [] "http://h/a.mp3" 1
                             (Some true) None)))).
Proof.
  assert (H : NoDup (map url [queued_prefetch])).
  { constructor; [intros [] | constructor]. }
  split; [exact H|].
  exact (queue_urls_stay_unique [queued_prefetch] [] "http://h/a.mp3" 1
           (Some true) None H).
Defined.

(** X14.  [add] followed by [delete] of the same URL gives the queue back,
    when the URL was not in the queue before. *)
Theorem add_then_delete (q : list FetchQueueItem) (log : list nat)
    (u : string) (a : nat) (direct : option bool) (pos : option Z) :
  AudioCache.has q u = false ->
  AudioCache.delete (fst (AudioCache.add q log u a direct pos)) u = q.
Proof.
  intros H. unfold AudioCache.add. cbn [fst]. apply delete_added. exact H.
Qed.

Lemma add_then_delete_witness :
  AudioCache.has [queued_prefetch] "http://h/b.mp3" = false /\
  AudioCache.delete
    (fst (AudioCache.add [queued_prefetch] [] "http://h/b.mp3" 1 (Some true) None))
    "http://h/b.mp3"
  = [queued_prefetch].
Proof.
  split; [reflexivity|].
  exact (add_then_delete [queued_prefetch] [] "http://h/b.mp3" 1 (Some true) None
           eq_refl).
Defined.

(* ================================================================== *)
(** ** Bulk cancellation: properties *)

Section Abort.

Variable pathname : string -> option string.

(** X15.  [abort] without a path prefix and without [keepDirect] calls
    [abort()] on the handle of every entry, in queue order, and does not
    throw: no URL is parsed. *)
Theorem abort_all (q : list FetchQueueItem) (log : list nat)
    (pathPrefix : option string) (keepDirect : option bool) :
  Js.truthy_string pathPrefix = false ->
  Js.truthy_bool keepDirect = false ->
  AudioCache.abort pathname q log pathPrefix keepDirect
  = (Fulfilled tt, (log ++ map abort q)%list).
Proof.
  intros Hp Hk. unfold AudioCache.abort. rewrite Hp, Hk. cbn [andb negb].
  revert log. induction q as [|i q IH]; intros log; cbn [fold_left map fst snd].
  - rewrite app_nil_r. reflexivity.
  - rewrite IH, <- app_assoc. reflexivity.
Qed.

(** X16.  With [keepDirect] set, [abort] cancels no entry marked direct,
    whatever the prefix and even when a URL of the queue fails to parse:
    every handle it calls is the handle of an entry that is not direct. *)
Theorem abort_keeps_direct (q : list FetchQueueItem) (log : list nat)
    (pathPrefix : option string) (keepDirect : option bool) :
  Js.truthy_bool keepDirect = true ->
  exists cancelled : list FetchQueueItem,
    snd (AudioCache.abort pathname q log pathPrefix keepDirect)
    = (log ++ map abort cancelled)%list
    /\ forall i, In i cancelled -> In i q /\ Js.truthy_bool (isDirect i) = false.
Proof.
  intros Hk. unfold AudioCache.abort.
  match goal with
  | |- context [fold_left ?f q _] => set (step := f)
  end.
  assert (Hone : forall (st : Outcome unit * list nat) (i : FetchQueueItem),
             snd (step st i) = snd st
             \/ (snd (step st i) = (snd st ++ [abort i])%list
                 /\ Js.truthy_bool (isDirect i) = false)).
  { intros [o l] i. unfold step. cbn [fst snd]. rewrite Hk. cbn [andb].
    destruct o as [[]|e]; [|left; reflexivity].
    destruct (Js.truthy_bool (isDirect i)); cbn [negb]; [left; reflexivity|].
    destruct (negb (Js.truthy_string pathPrefix)); [right; split; reflexivity|].
    destruct (pathname (url i)) as [path|]; [|left; reflexivity].
    destruct (String.prefix _ path); [right; split; reflexivity | left; reflexivity]. }
  clearbody step.
  assert (G : forall (l : list FetchQueueItem) (st : Outcome unit * list nat),
             exists cancelled,
               snd (fold_left step l st) = (snd st ++ map abort cancelled)%list
               /\ forall i, In i cancelled ->
                            In i l /\ Js.truthy_bool (isDirect i) = false).
  { induction l as [|i l IH]; intros st; cbn [fold_left].
    - exists []. cbn [map]. rewrite app_nil_r. split; [reflexivity | intros i []].
    - destruct (IH (step st i)) as (cs & Hcs & Hall).
      destruct (Hone st i) as [E|[E Hd]].
      + exists cs. rewrite Hcs, E. split; [reflexivity|].
        intros j Hj. destruct (Hall j Hj). split; [right|]; assumption.
      + exists (i :: cs). rewrite Hcs, E. cbn [map]. rewrite <- app_assoc.
        split; [reflexivity|].
        intros j [<-|Hj]; [split; [left; reflexivity | exact Hd]|].
        destruct (Hall j Hj). split; [right|]; assumption. }
  exact (G q (Fulfilled tt, log)).
Qed.

(** X17.  When every URL of the queue parses, [abort] does not throw and
    calls [abort()] on the handles of the entries that are not kept back as
    direct and whose path starts with the prefix (all paths, when the prefix
    is empty or left out), in queue order. *)
Theorem abort_by_prefix (q : list FetchQueueItem) (log : list nat)
    (pathPrefix : option string) (keepDirect : option bool) :
  (forall i, In i q -> pathname (url i) <> None) ->
  AudioCache.abort pathname q log pathPrefix keepDirect
  = (Fulfilled tt,
     (log ++ map abort (filter (abort_selects pathname pathPrefix keepDirect) q))%list).
Proof.
  intros Hvalid. unfold AudioCache.abort.
  revert log. induction q as [|i q IH]; intros log; cbn [fold_left filter map].
  - rewrite app_nil_r. reflexivity.
  - cbn [fst snd].
    assert (IH' := IH (fun j Hj => Hvalid j (or_intror Hj))).
    pose proof (Hvalid i (or_introl eq_refl)) as Hi.
    destruct (abort_selects pathname pathPrefix keepDirect i) eqn:Esel;
      unfold abort_selects in Esel;
      destruct (negb (Js.truthy_bool keepDirect && Js.truthy_bool (isDirect i)));
      cbn [andb] in Esel; try discriminate;
      destruct (negb (Js.truthy_string pathPrefix));
      cbn [orb] in Esel; try discriminate;
      try (destruct (pathname (url i)) as [path|]; [|congruence];
           destruct (String.prefix _ path); try discriminate);
      cbn [map]; rewrite IH', <- ?app_assoc; reflexivity.
Qed.

End Abort.

Lemma abort_all_witness :
  Js.truthy_string (Some "") = false /\ Js.truthy_bool None = false /\
  AudioCache.abort (fun _ => None) [queued_prefetch; queued_prefetch] [] (Some "") None
  = (Fulfilled tt, ([] ++ map abort [queued_prefetch; queued_prefetch])%list).
Proof.
  do 2 (split; [reflexivity|]).
  exact (abort_all (fun _ => None) [queued_prefetch; queued_prefetch] [] (Some "") None
           eq_refl eq_refl).
Defined.

Lemma abort_keeps_direct_witness :
  Js.truthy_bool (Some true) = true /\
  exists cancelled : list FetchQueueItem,
    snd (AudioCache.abort (fun _ => None)
           [mkFetchQueueItem "http://h/b.mp3" 1 (Some true) None; queued_prefetch]
           [] None (Some true))
    = ([] ++ map abort cancelled)%list
    /\ forall i, In i cancelled ->
                 In i [mkFetchQueueItem "http://h/b.mp3" 1 (Some true) None;
                       queued_prefetch]
                 /\ Js.truthy_bool (isDirect i) = false.
Proof.
  split; [reflexivity|].
  exact (abort_keeps_direct (fun _ => None)
           [mkFetchQueueItem "http://h/b.mp3" 1 (Some true) None; queued_prefetch]
           [] None (Some true) eq_refl).
Defined.

Lemma abort_by_prefix_witness :
  (forall i,
      In i [mkFetchQueueItem "http://h/books/a.mp3" 1 (Some false) None;
            mkFetchQueueItem "http://h/music/b.mp3" 2 (Some false) None] ->
      sample_pathname (url i) <> None) /\
  AudioCache.abort sample_pathname
    [mkFetchQueueItem "http://h/books/a.mp3" 1 (Some false) None;
     mkFetchQueueItem "http://h/music/b.mp3" 2 (Some false) None]
    [] (Some "/books") None
  = (Fulfilled tt,
     ([] ++ map abort
        (filter (abort_selects sample_pathname (Some "/books") None)
           [mkFetchQueueItem "http://h/books/a.mp3" 1 (Some false) None;
            mkFetchQueueItem "http://h/music/b.mp3" 2 (Some false) None]))%list).
Proof.
  assert (H : forall i,
             In i [mkFetchQueueItem "http://h/books/a.mp3" 1 (Some false) None;
                   mkFetchQueueItem "http://h/music/b.mp3" 2 (Some false) None] ->
             sample_pathname (url i) <> None).
  { intros i [<-|[<-|[]]]; discriminate. }
  split; [exact H|].
  exact (abort_by_prefix sample_pathname _ [] (Some "/books") None H).
Defined.

Example abort_by_prefix_sample :
  AudioCache.abort sample_pathname
    [mkFetchQueueItem "http://h/books/a.mp3" 1 (Some false) None;
     mkFetchQueueItem "http://h/music/b.mp3" 2 (Some false) None]
    [] (Some "/books") None
  = (Fulfilled tt, [1%nat]).
Proof. reflexivity. Qed.

(* ================================================================== *)
(** ** Promise chains: settling *)

Lemma never_rejects_then {A B : Type} (p : M A) (f : A -> M B) :
  never_rejects p -> (forall a, never_rejects (f a)) -> never_rejects (then_ p f).
Proof.
  intros Hp Hf s. unfold then_. destruct (Hp s) as [a Ha].
  destruct (p s) as [[a'|e] s']; cbn [fst] in Ha; [|discriminate].
  apply Hf.
Qed.

Lemma never_rejects_catch {A : Type} (p : M A) (h : Thrown -> M A) :
  (forall e, never_rejects (h e)) -> never_rejects (catch_ p h).
Proof.
  intros Hh s. unfold catch_. destruct (p s) as [[a|e] s'].
  - exists a. reflexivity.
  - apply Hh.
Qed.

Lemma never_rejects_total {A : Type} (p : M A) (f : State -> A) (g : State -> State) :
  (forall s, p s = (Fulfilled (f s), g s)) -> never_rejects p.
Proof. intros H s. exists (f s). rewrite H. reflexivity. Qed.

Lemma never_rejects_ret {A : Type} (a : A) : never_rejects (ret a).
Proof. intros s. exists a. reflexivity. Qed.

Lemma never_rejects_console (l : LogLevel) (m : string) :
  never_rejects (console_log l m).
Proof. intros s. exists tt. reflexivity. Qed.

Lemma never_rejects_broadcast (m : CacheMessage) :
  never_rejects (broadcastMessage m).
Proof. intros s. exists tt. reflexivity. Qed.

Lemma never_rejects_delete (u : string) : never_rejects (AudioCache.delete_ u).
Proof. intros s. exists tt. reflexivity. Qed.

Lemma never_rejects_add (u : string) (a : nat) (d : option bool) (pos : option Z) :
  never_rejects (AudioCache.add_ u a d pos).
Proof. intros s. exists tt. reflexivity. Qed.

Create HintDb chains.

#[local] Hint Resolve never_rejects_ret never_rejects_console
  never_rejects_broadcast never_rejects_delete never_rejects_add : chains.

(** The chain [AudioCache.handleRequest] hands to [respondWith]. *)
Lemma audio_handleRequest_settles
    (removeQuery : string -> string) (toNumber : string -> option Z)
    (env : Env) (sizeLimit : Z) (evt : Request) :
  never_rejects (AudioCache.handleRequest removeQuery toNumber env sizeLimit evt).
Proof.
  unfold AudioCache.handleRequest. apply never_rejects_catch.
  intros e. apply never_rejects_then; auto with chains.
Qed.

(** The chain [handlePrefetch] hands to [waitUntil]. *)
Lemma handlePrefetch_settles
    (removeQuery : string -> string) (env : Env) (sizeLimit : Z)
    (msg : PrefetchMessage) :
  never_rejects (AudioCache.handlePrefetch removeQuery env sizeLimit msg).
Proof.
  unfold AudioCache.handlePrefetch.
  apply never_rejects_then; [auto with chains|]. intros _.
  apply never_rejects_then; [intros s; eexists; reflexivity|]. intros [|].
  - auto with chains.
  - apply never_rejects_then; [intros s; eexists; reflexivity|]. intros a.
    apply never_rejects_then; [auto with chains|]. intros _.
    apply never_rejects_then; [|auto with chains].
    apply never_rejects_catch. auto with chains.
Qed.

Lemma networkFirst_settles
    (env : Env) (cacheName : string) (sizeLimit : Z) (isEnabled : bool)
    (evt : Request) :
  never_rejects (NetworkFirstCache.handleRequest env cacheName sizeLimit isEnabled evt).
Proof.
  unfold NetworkFirstCache.handleRequest. destruct isEnabled; cbn [negb].
  - apply never_rejects_then; [|auto with chains].
    apply never_rejects_catch. intros e.
    apply never_rejects_catch. auto with chains.
  - auto with chains.
Qed.

(** X18.  The chains the three handlers hand to the event are never
    rejected, whatever the request, the state, the network and the cache
    storage: [AudioCache.handleRequest] and [NetworkFirstCache.handleRequest]
    always serve some response (every failure ends in a [catch] that
    answers), and the chain of [handlePrefetch] always fulfils (every
    failure ends in the handler that broadcasts it). *)
Theorem handlers_never_reject
    (removeQuery : string -> string) (toNumber : string -> option Z)
    (env : Env) (cacheName : string) (sizeLimit : Z) (isEnabled : bool)
    (evt : Request) (msg : PrefetchMessage) :
  never_rejects (AudioCache.handleRequest removeQuery toNumber env sizeLimit evt)
  /\ never_rejects (AudioCache.handlePrefetch removeQuery env sizeLimit msg)
  /\ never_rejects
       (NetworkFirstCache.handleRequest env cacheName sizeLimit isEnabled evt).
Proof.
  split; [apply audio_handleRequest_settles|].
  split; [apply handlePrefetch_settles | apply networkFirst_settles].
Qed.

(* ================================================================== *)
(** ** Eviction inside the controllers *)

(** [evictCache] on a store of distinct keys, for every limit. *)
Lemma evictCache_uniform {S : Type} (c : Cache) (sizeLimit : Z)
    (onDelete : option (string -> S -> S)) (s : S) :
  NoDup (cache_keys c) ->
  evictCache c sizeLimit onDelete s
  = (skipn (evict_count c sizeLimit) c,
     fold_left (call_onDelete onDelete)
       (List.rev (firstn (evict_count c sizeLimit) (cache_keys c))) s).
Proof.
  intros Hnd. unfold evict_count.
  destruct (Z.ltb_spec 0 (Z.of_nat (List.length c) - sizeLimit)) as [Hpos|Hle].
  - apply evictCache_effect; assumption.
  - rewrite evictCache_within_limit by lia.
    replace (Z.to_nat (Z.of_nat (List.length c) - sizeLimit)) with 0%nat by lia.
    reflexivity.
Qed.

Lemma cache_put_NoDup (key : string) (r : Response) (c : Cache) :
  NoDup (cache_keys c) -> NoDup (cache_keys (cache_put key r c)).
Proof.
  intros Hnd. unfold cache_put, cache_keys. rewrite map_app. cbn [map fst].
  apply NoDup_app.
  - clear - Hnd. unfold cache_keys in Hnd.
    induction c as [|x c IH]; [constructor|].
    inversion Hnd as [|? ? Hx Hc]; subst. cbn [filter].
    destruct (negb (String.eqb (fst x) key)); [|apply IH; exact Hc].
    cbn [map]. constructor; [|apply IH; exact Hc].
    intros Hin. apply Hx. apply in_map_iff in Hin.
    destruct Hin as (kr & E & Hkr). apply filter_In in Hkr.
    rewrite <- E. apply in_map. tauto.
  - constructor; [intros [] | constructor].
  - intros k Hin [<-|[]]. apply in_map_iff in Hin.
    destruct Hin as (kr & E & Hkr). apply filter_In in Hkr.
    destruct Hkr as [_ Hne]. rewrite E, String.eqb_refl in Hne. discriminate.
Qed.

Lemma broadcast_deleted_fold (ks : list string) :
  forall st : State,
    fold_left
      (call_onDelete
         (Some (fun key st => snd (AudioCache.broadcastDeleted key st))))
      ks st
    = set_sent (sent st ++ map deleted_message ks)%list st.
Proof.
  induction ks as [|k ks IH]; intros st; cbn [fold_left map].
  - destruct st. unfold set_sent. cbn. rewrite app_nil_r. reflexivity.
  - rewrite IH. unfold call_onDelete, AudioCache.broadcastDeleted, broadcastMessage.
    cbn [snd]. unfold set_sent. cbn. rewrite <- app_assoc. reflexivity.
Qed.

(** The eviction the audio controller runs after a write, on a store of
    distinct keys: the oldest records beyond the limit go, and a [Deleted]
    message is broadcast for each. *)
Lemma evictCache_broadcast (sizeLimit : Z) (st : State) :
  NoDup (cache_keys (cache st)) ->
  evictCache_ sizeLimit (Some AudioCache.broadcastDeleted) st
  = (Fulfilled tt,
     set_cache (skipn (evict_count (cache st) sizeLimit) (cache st))
       (set_sent
          (sent st
             ++ map deleted_message
                  (List.rev (firstn (evict_count (cache st) sizeLimit)
                               (cache_keys (cache st)))))%list
          st)).
Proof.
  intros Hnd. unfold evictCache_. cbn [option_map].
  rewrite evictCache_uniform by exact Hnd.
  rewrite broadcast_deleted_fold. reflexivity.
Qed.

Lemma logFetchError_effect (e : Thrown) (u : string) (st : State) :
  exists (l : LogLevel) (m : string),
    logFetchError e u st = (Fulfilled tt, set_console (console st ++ [(l, m)])%list st).
Proof.
  unfold logFetchError.
  destruct e as [n m|n m|r]; try (eexists; eexists; reflexivity).
  destruct (String.eqb_spec n "AbortError") as [->|Hn];
    [eexists; eexists; reflexivity|].
  repeat match goal with
         | |- context [match ?n with EmptyString => _ | String _ _ => _ end] =>
             destruct n; try (eexists; eexists; reflexivity)
         | |- context [match ?a with Ascii _ _ _ _ _ _ _ _ => _ end] =>
             destruct a
         | |- context [if ?b then _ else _] =>
             destruct b; try (eexists; eexists; reflexivity)
         end.
Qed.

(* ================================================================== *)
(** ** Audio cache controller: further properties *)

Section AudioControllerPaths.

Variable removeQuery : string -> string.
Variable toNumber : string -> option Z.
Variable env : Env.
Variable sizeLimit : Z.

Local Abbreviation handleRequest :=
  (AudioCache.handleRequest removeQuery toNumber env sizeLimit).
Local Abbreviation handlePrefetch :=
  (AudioCache.handlePrefetch removeQuery env sizeLimit).
Local Abbreviation direct_entry := (direct_entry removeQuery toNumber).

Ltac open_request Hopen Hlookup :=
  unfold AudioCache.handleRequest, direct_request in *;
  run_chain; rewrite Hopen; run_chain; rewrite Hlookup; run_chain.

Ltac log_fetch_error :=
  match goal with
  | |- context [logFetchError ?e ?u ?st] =>
      let l := fresh "l" in
      let m := fresh "m" in
      let E := fresh "E" in
      destruct (logFetchError_effect e u st) as (l & m & E); rewrite E
  end.

Ltac evict_frame :=
  repeat match goal with
    | |- context [queue (snd (evictCache_ ?l ?cb ?st))] =>
        rewrite (proj1 (evict_broadcast_frame l st))
    | |- context [fetched (snd (evictCache_ ?l ?cb ?st))] =>
        rewrite (proj1 (proj2 (evict_broadcast_frame l st)))
    | |- context [aborted (snd (evictCache_ ?l ?cb ?st))] =>
        rewrite (proj2 (proj2 (evict_broadcast_frame l st)))
    end.

Lemma handleRequest_from_store (evt : Request) (s : State) (resp : Response) :
  opens env (opened s) = true ->
  cache_match (rq_url evt) (cache s) = Some resp ->
  fst (handleRequest evt s)
  = Fulfilled match buildResponse resp (headers_get "range" (rq_headers evt)) with
              | Fulfilled out => out
              | Rejected _ => cache_error_response
              end
  /\ fetched (snd (handleRequest evt s)) = fetched s
  /\ queue (snd (handleRequest evt s)) = queue s
  /\ cache (snd (handleRequest evt s)) = cache s
  /\ sent (snd (handleRequest evt s)) = sent s
  /\ aborted (snd (handleRequest evt s)) = aborted s.
Proof.
  intros Hopen Hhit. open_request Hopen Hhit.
  destruct (buildResponse resp _); run_chain; repeat split.
Qed.

(** X19.  A request the store answers is served from the store - the range
    response when the request carries a [Range] header, the 555 response
    when the builder rejects the header - and nothing else happens: no
    fetch, no change of the queue or of the store, no broadcast, no
    cancellation. *)
Theorem handleRequest_hit (evt : Request) (s : State) (resp : Response) :
  opens env (opened s) = true ->
  cache_match (rq_url evt) (cache s) = Some resp ->
  fst (handleRequest evt s)
  = Fulfilled match buildResponse resp (headers_get "range" (rq_headers evt)) with
              | Fulfilled out => out
              | Rejected _ => cache_error_response
              end
  /\ fetched (snd (handleRequest evt s)) = fetched s
  /\ queue (snd (handleRequest evt s)) = queue s
  /\ cache (snd (handleRequest evt s)) = cache s
  /\ sent (snd (handleRequest evt s)) = sent s
  /\ aborted (snd (handleRequest evt s)) = aborted s.
Proof. apply handleRequest_from_store. Qed.

(** X20.  For a request that misses the store and whose key is not queued,
    one fetch is issued whatever happens next: of the URL of the request,
    with credentials and without any header of the request (no [Range]),
    bound to a new cancellation handle; and [abort()] is called on the
    handle of every entry marked direct that was in the queue, on no
    other. *)
Theorem handleRequest_direct_fetch (evt : Request) (s : State) :
  opens env (opened s) = true ->
  cache_match (rq_url evt) (cache s) = None ->
  AudioCache.has (queue s) (removeQuery (rq_url evt)) = false ->
  fetched (snd (handleRequest evt s))
  = (fetched s ++ [(direct_request evt, Some (fresh s))])%list
  /\ aborted (snd (handleRequest evt s))
     = (aborted s ++ map abort (filter marked_direct (queue s)))%list.
Proof.
  intros Hopen Hmiss Hq. open_request Hopen Hmiss. rewrite Hq. run_chain.
  cbn [cloneRequest rq_url rq_headers rq_credentials headers_delete filter
       Js.truthy_bool].
  rewrite add_loop.
  destruct (net env _) as [resp|e]; run_chain; [|split; reflexivity].
  destruct (puts env _ _) as [e|]; run_chain.
  - log_fetch_error. split; reflexivity.
  - cbn [fetched aborted fst snd]. evict_frame. split; reflexivity.
Qed.

Lemma handleRequest_success (evt : Request) (s : State) (resp : Response) :
  NoDup (cache_keys (cache s)) ->
  opens env (opened s) = true ->
  cache_match (rq_url evt) (cache s) = None ->
  AudioCache.has (queue s) (removeQuery (rq_url evt)) = false ->
  net env (direct_request evt) = Fulfilled resp ->
  puts env (removeQuery (rq_url evt)) resp = None ->
  let key := removeQuery (rq_url evt) in
  let stored := cache_put key resp (cache s) in
  let k := evict_count stored sizeLimit in
  fst (handleRequest evt s) = Fulfilled resp
  /\ cache (snd (handleRequest evt s)) = skipn k stored
  /\ sent (snd (handleRequest evt s))
     = (sent s
          ++ mkCacheMessage ActualCached key (rs_url resp) None
          :: map deleted_message (List.rev (firstn k (cache_keys stored))))%list
  /\ queue (snd (handleRequest evt s)) = queue s
  /\ (1 <= sizeLimit ->
      cache_match key (cache (snd (handleRequest evt s))) = Some resp).
Proof.
  intros Hnd Hopen Hmiss Hq Hnet Hput key stored k.
  assert (Hstored : NoDup (cache_keys stored)) by (apply cache_put_NoDup; exact Hnd).
  assert (E : fst (handleRequest evt s) = Fulfilled resp
              /\ cache (snd (handleRequest evt s)) = skipn k stored
              /\ sent (snd (handleRequest evt s))
                 = (sent s
                      ++ mkCacheMessage ActualCached key (rs_url resp) None
                      :: map deleted_message
                           (List.rev (firstn k (cache_keys stored))))%list
              /\ queue (snd (handleRequest evt s)) = queue s).
  { open_request Hopen Hmiss. rewrite Hq. run_chain.
    cbn [cloneRequest rq_url rq_headers rq_credentials headers_delete filter].
    rewrite Hnet. run_chain. rewrite Hput. run_chain.
    rewrite evictCache_broadcast by exact Hstored.
    run_chain. rewrite <- app_assoc. cbn [List.app].
    repeat split. apply delete_added. exact Hq. }
  destruct E as (E1 & E2 & E3 & E4). repeat split; try assumption.
  intros HL. rewrite E2. subst k.
  rewrite <- (match_after_put_evict key resp (cache s) sizeLimit
                (@None (string -> unit -> unit)) tt HL).
  fold stored. rewrite (evictCache_uniform stored sizeLimit None tt Hstored).
  reflexivity.
Qed.

(** X21.  When the fetch of [handleRequest] resolves and the write
    succeeds, on a store of distinct keys: the network's response is served;
    the store holds it under the normalized key as its most recent record,
    less the oldest records beyond the limit; [ActualCached] is broadcast
    with the key and the URL of the response, then one [Deleted] for each
    evicted key; the queue is as before.  With a limit of at least 1 the
    lookup of the key finds the response. *)
Theorem handleRequest_caches (evt : Request) (s : State) (resp : Response) :
  NoDup (cache_keys (cache s)) ->
  opens env (opened s) = true ->
  cache_match (rq_url evt) (cache s) = None ->
  AudioCache.has (queue s) (removeQuery (rq_url evt)) = false ->
  net env (direct_request evt) = Fulfilled resp ->
  puts env (removeQuery (rq_url evt)) resp = None ->
  let key := removeQuery (rq_url evt) in
  let stored := cache_put key resp (cache s) in
  let k := evict_count stored sizeLimit in
  fst (handleRequest evt s) = Fulfilled resp
  /\ cache (snd (handleRequest evt s)) = skipn k stored
  /\ sent (snd (handleRequest evt s))
     = (sent s
          ++ mkCacheMessage ActualCached key (rs_url resp) None
          :: map deleted_message (List.rev (firstn k (cache_keys stored))))%list
  /\ queue (snd (handleRequest evt s)) = queue s
  /\ (1 <= sizeLimit ->
      cache_match key (cache (snd (handleRequest evt s))) = Some resp).
Proof. apply handleRequest_success. Qed.

(** X22.  When the fetch of [handleRequest] resolves and the write to the
    store fails, the response is served all the same; the store is
    unchanged, nothing is broadcast, and the entry is released. *)
Theorem handleRequest_write_fails
    (evt : Request) (s : State) (resp : Response) (e : Thrown) :
  opens env (opened s) = true ->
  cache_match (rq_url evt) (cache s) = None ->
  AudioCache.has (queue s) (removeQuery (rq_url evt)) = false ->
  net env (direct_request evt) = Fulfilled resp ->
  puts env (removeQuery (rq_url evt)) resp = Some e ->
  fst (handleRequest evt s) = Fulfilled resp
  /\ cache (snd (handleRequest evt s)) = cache s
  /\ sent (snd (handleRequest evt s)) = sent s
  /\ queue (snd (handleRequest evt s)) = queue s.
Proof.
  intros Hopen Hmiss Hq Hnet Hput.
  open_request Hopen Hmiss. rewrite Hq. run_chain.
  cbn [cloneRequest rq_url rq_headers rq_credentials headers_delete filter].
  rewrite Hnet. run_chain. rewrite Hput. run_chain.
  log_fetch_error. run_chain. repeat split. apply delete_added. exact Hq.
Qed.

(** X23.  A prefetch whose key is not queued, whose fetch answers with a
    status in 200-299 and whose write succeeds, on a store of distinct
    keys: one fetch of the URL of the message, with credentials, bound to a
    new handle; the store holds the response under the normalized key, less
    the oldest records beyond the limit; [PrefetchCached] is broadcast, then
    one [Deleted] for each evicted key; the queue is as before. *)
Theorem handlePrefetch_caches (msg : PrefetchMessage) (s : State) (resp : Response) :
  NoDup (cache_keys (cache s)) ->
  AudioCache.has (queue s) (removeQuery (pm_url msg)) = false ->
  net env (prefetch_request msg) = Fulfilled resp ->
  rs_ok resp = true ->
  opens env (opened s) = true ->
  puts env (removeQuery (pm_url msg)) resp = None ->
  let key := removeQuery (pm_url msg) in
  let stored := cache_put key resp (cache s) in
  let k := evict_count stored sizeLimit in
  fetched (snd (handlePrefetch msg s))
  = (fetched s ++ [(prefetch_request msg, Some (fresh s))])%list
  /\ cache (snd (handlePrefetch msg s)) = skipn k stored
  /\ sent (snd (handlePrefetch msg s))
     = (sent s
          ++ mkCacheMessage PrefetchCached key (rs_url resp) None
          :: map deleted_message (List.rev (firstn k (cache_keys stored))))%list
  /\ queue (snd (handlePrefetch msg s)) = queue s.
Proof.
  intros Hnd Hq Hnet Hok Hopen Hput key stored k.
  assert (Hstored : NoDup (cache_keys stored)) by (apply cache_put_NoDup; exact Hnd).
  unfold AudioCache.handlePrefetch, prefetch_request in *.
  run_chain. rewrite Hq. run_chain. rewrite Hnet. run_chain.
  rewrite Hok. run_chain. rewrite Hopen. run_chain. rewrite Hput. run_chain.
  rewrite evictCache_broadcast by exact Hstored.
  run_chain. rewrite <- app_assoc. cbn [List.app].
  repeat split. apply delete_added. exact Hq.
Qed.

(** X24.  A prefetch whose key is not queued and that fails - the fetch is
    rejected or answers outside 200-299, the cache storage does not open,
    or the write fails - leaves the store as it is, releases its entry, and
    broadcasts one message, of kind [PrefetchError], with the key, the
    original URL and the cause: for a status outside 200-299 the URL of the
    response and a new [Error] that names the status; otherwise the URL of
    the message and what the fetch, [caches.open] or [cache.put] was
    rejected with.  (The status of a response is an unsigned short.) *)
Theorem handlePrefetch_fails (msg : PrefetchMessage) (s : State) :
  AudioCache.has (queue s) (removeQuery (pm_url msg)) = false ->
  prefetch_fails env (removeQuery (pm_url msg)) msg s = true ->
  (forall resp, net env (prefetch_request msg) = Fulfilled resp ->
                0 <= rs_status resp <= 65535) ->
  cache (snd (handlePrefetch msg s)) = cache s
  /\ queue (snd (handlePrefetch msg s)) = queue s
  /\ exists original cause,
       sent (snd (handlePrefetch msg s))
       = (sent s ++ [mkCacheMessage PrefetchError (removeQuery (pm_url msg))
                       original (Some cause)])%list
       /\ match net env (prefetch_request msg) with
          | Rejected e => original = pm_url msg /\ cause = e
          | Fulfilled resp =>
              if rs_ok resp then
                original = pm_url msg
                /\ (if opens env (opened s)
                    then puts env (removeQuery (pm_url msg)) resp = Some cause
                    else cause = DOMException "UnknownError"
                                   "cache storage unavailable")
              else
                original = rs_url resp
                /\ cause = ErrorObject "Error"
                             ("Response status error code: "
                                ++ Js.String_of_number (rs_status resp))
          end.
Proof.
  intros Hq Hfail _.
  unfold AudioCache.handlePrefetch, prefetch_fails, prefetch_request in *.
  run_chain. rewrite Hq. run_chain.
  destruct (net env _) as [resp|e]; run_chain.
  - destruct (rs_ok resp); run_chain; cbn [negb orb] in Hfail.
    + destruct (opens env (opened s)); run_chain; cbn [negb orb] in Hfail.
      * destruct (puts env _ resp) as [e|]; [|discriminate]. run_chain.
        split; [reflexivity|]. split; [apply delete_added; exact Hq|].
        eexists; eexists; split; [reflexivity|]. split; reflexivity.
      * split; [reflexivity|]. split; [apply delete_added; exact Hq|].
        eexists; eexists; split; [reflexivity|]. split; reflexivity.
    + split; [reflexivity|]. split; [apply delete_added; exact Hq|].
      eexists; eexists; split; [reflexivity|]. split; reflexivity.
  - split; [reflexivity|]. split; [apply delete_added; exact Hq|].
    eexists; eexists; split; [reflexivity|]. split; reflexivity.
Qed.

(** X25.  A prefetch cancels nothing and fetches at most once: whatever the
    message, the state and the platform, [handlePrefetch] calls no
    [abort()], and the fetches it leaves are those before, or those and one
    fetch of the URL of the message. *)
Theorem handlePrefetch_cancels_nothing (msg : PrefetchMessage) (s : State) :
  aborted (snd (handlePrefetch msg s)) = aborted s
  /\ (fetched (snd (handlePrefetch msg s)) = fetched s
      \/ fetched (snd (handlePrefetch msg s))
         = (fetched s ++ [(prefetch_request msg, Some (fresh s))])%list).
Proof.
  unfold AudioCache.handlePrefetch, prefetch_request.
  run_chain. destruct (AudioCache.has (queue s) _); run_chain.
  - split; [reflexivity | left; reflexivity].
  - cbn [Js.truthy_bool].
    destruct (net env _) as [resp|e]; run_chain;
      [|split; [reflexivity | right; reflexivity]].
    destruct (rs_ok resp); run_chain;
      [|split; [reflexivity | right; reflexivity]].
    destruct (opens env (opened s)); run_chain;
      [|split; [reflexivity | right; reflexivity]].
    destruct (puts env _ resp) as [e|]; run_chain;
      [split; [reflexivity | right; reflexivity]|].
    cbn [fetched aborted fst snd]. evict_frame.
    split; [reflexivity | right; reflexivity].
Qed.

Lemma passthrough_leaves_state (evt : Request) (s : State) :
  opens env (opened s) = true ->
  cache_match (rq_url evt) (cache s) = None ->
  AudioCache.has (queue s) (removeQuery (rq_url evt)) = true ->
  fetched (snd (handleRequest evt s)) = (fetched s ++ [(evt, None)])%list
  /\ cache (snd (handleRequest evt s)) = cache s
  /\ sent (snd (handleRequest evt s)) = sent s
  /\ aborted (snd (handleRequest evt s)) = aborted s
  /\ queue (snd (handleRequest evt s)) = queue s.
Proof.
  intros Hopen Hmiss Hq. open_request Hopen Hmiss. rewrite Hq. run_chain.
  destruct (net env evt) as [resp|e]; run_chain; repeat split.
Qed.

(** X26.  The handlers keep the URLs of the queue distinct: from a queue in
    which no two entries carry the same URL, [handleRequest] and
    [handlePrefetch] leave such a queue, however the network, the cache
    storage and the write settle. *)
Theorem handlers_keep_queue_unique
    (evt : Request) (msg : PrefetchMessage) (s : State) :
  NoDup (map url (queue s)) ->
  NoDup (map url (queue (snd (handleRequest evt s))))
  /\ NoDup (map url (queue (snd (handlePrefetch msg s)))).
Proof.
  intros Hnd. split.
  - destruct (opens env (opened s)) eqn:Hopen.
    + destruct (cache_match (rq_url evt) (cache s)) as [resp|] eqn:Hlookup.
      * rewrite (proj1 (proj2 (proj2 (handleRequest_from_store evt s resp Hopen Hlookup)))).
        exact Hnd.
      * destruct (AudioCache.has (queue s) (removeQuery (rq_url evt))) eqn:Hq.
        -- rewrite (proj2 (proj2 (proj2 (proj2
                      (passthrough_leaves_state evt s Hopen Hlookup Hq))))).
           exact Hnd.
        -- destruct (net env (direct_request evt)) as [resp|e] eqn:Hnet.
           ++ rewrite (proj2 (handleRequest_releases_entry removeQuery toNumber env
                                sizeLimit evt s resp Hopen Hlookup Hq Hnet)).
              exact Hnd.
           ++ replace (queue (snd (handleRequest evt s)))
                with (fst (AudioCache.add (queue s) (aborted s)
                             (removeQuery (rq_url evt)) (fresh s) (Some true)
                             (folderPosition (direct_entry evt s)))).
              ** apply add_unique; assumption.
              ** open_request Hopen Hlookup. rewrite Hq. run_chain.
                 cbn [cloneRequest rq_url rq_headers rq_credentials
                      headers_delete filter].
                 rewrite Hnet. run_chain. reflexivity.
    + unfold AudioCache.handleRequest. run_chain. rewrite Hopen. run_chain.
      exact Hnd.
  - destruct (AudioCache.has (queue s) (removeQuery (pm_url msg))) eqn:Hq.
    + unfold AudioCache.handlePrefetch. run_chain. rewrite Hq. run_chain.
      exact Hnd.
    + rewrite (handlePrefetch_releases_entry removeQuery env sizeLimit msg s Hq).
      exact Hnd.
Qed.

(** The keys of the store after the handlers: those before, and at most
    the normalized key of the request or of the message. *)
Lemma evicted_keys_subset (sizeLimit' : Z) (onDelete : option (string -> M unit))
    (st : State) (k : string) :
  In k (cache_keys (cache (snd (evictCache_ sizeLimit' onDelete st)))) ->
  In k (cache_keys (cache st)).
Proof.
  unfold evictCache_.
  destruct (evictCache (cache st) sizeLimit' _ st) as [c' s'] eqn:E.
  cbn [snd]. unfold set_cache. cbn [cache].
  replace c' with (fst (evictCache (cache st) sizeLimit'
                          (option_map (fun f key st0 => snd (f key st0)) onDelete) st))
    by (rewrite E; reflexivity).
  rewrite evictCache_store. unfold cache_keys. intros H.
  apply in_map_iff in H. destruct H as (kr & Ek & Hin).
  apply filter_In in Hin. rewrite <- Ek. apply in_map. tauto.
Qed.

Lemma cache_put_keys (key : string) (r : Response) (c : Cache) (k : string) :
  In k (cache_keys (cache_put key r c)) -> k = key \/ In k (cache_keys c).
Proof.
  unfold cache_put, cache_keys. rewrite map_app. cbn [map fst]. intros H.
  apply in_app_or in H. destruct H as [H|[H|[]]].
  - right. apply in_map_iff in H. destruct H as (kr & Ek & Hin).
    apply filter_In in Hin. rewrite <- Ek. apply in_map. tauto.
  - left. symmetry. exact H.
Qed.

Lemma handleRequest_store_keys (evt : Request) (s : State) (k : string) :
  In k (cache_keys (cache (snd (handleRequest evt s)))) ->
  k = removeQuery (rq_url evt) \/ In k (cache_keys (cache s)).
Proof.
  unfold AudioCache.handleRequest. run_chain.
  destruct (opens env (opened s)); run_chain; [|intros H; right; exact H].
  destruct (cache_match (rq_url evt) (cache s)) as [resp|]; run_chain.
  - destruct (buildResponse resp _); run_chain; intros H; right; exact H.
  - destruct (AudioCache.has (queue s) _); run_chain.
    + destruct (net env evt); run_chain; intros H; right; exact H.
    + cbn [cloneRequest rq_url rq_headers rq_credentials headers_delete filter].
      destruct (net env _) as [resp|e]; run_chain; [|intros H; right; exact H].
      destruct (puts env _ _) as [e|]; run_chain.
      * log_fetch_error. run_chain. intros H. right. exact H.
      * cbn [cache fst snd]. intros H. apply evicted_keys_subset in H.
        cbn [cache] in H. apply cache_put_keys in H. exact H.
Qed.

Lemma handlePrefetch_store_keys (msg : PrefetchMessage) (s : State) (k : string) :
  In k (cache_keys (cache (snd (handlePrefetch msg s)))) ->
  k = removeQuery (pm_url msg) \/ In k (cache_keys (cache s)).
Proof.
  unfold AudioCache.handlePrefetch. run_chain.
  destruct (AudioCache.has (queue s) _); run_chain; [intros H; right; exact H|].
  destruct (net env _) as [resp|e]; run_chain; [|intros H; right; exact H].
  destruct (rs_ok resp); run_chain; [|intros H; right; exact H].
  destruct (opens env (opened s)); run_chain; [|intros H; right; exact H].
  destruct (puts env _ resp) as [e|]; run_chain; [intros H; right; exact H|].
  cbn [cache fst snd]. intros H. apply evicted_keys_subset in H.
  cbn [cache] in H. apply cache_put_keys in H. exact H.
Qed.

(** The handlers keep the keys of the store normalized, when stripping the
    query of a normalized URL leaves it as it is. *)
Lemma handlers_keep_store_normalized
    (evt : Request) (msg : PrefetchMessage) (s : State) :
  (forall u, removeQuery (removeQuery u) = removeQuery u) ->
  keys_normalized removeQuery (cache s) ->
  keys_normalized removeQuery (cache (snd (handleRequest evt s)))
  /\ keys_normalized removeQuery (cache (snd (handlePrefetch msg s))).
Proof.
  intros Hidem Hnorm. split; intros k Hk.
  - destruct (handleRequest_store_keys evt s k Hk) as [->|Hin];
      [apply Hidem | apply Hnorm; exact Hin].
  - destruct (handlePrefetch_store_keys msg s k Hk) as [->|Hin];
      [apply Hidem | apply Hnorm; exact Hin].
Qed.

(** X27.  What [handleRequest] cached is served from the store afterwards:
    after a request whose fetch resolved and whose write succeeded (store of
    distinct keys, limit at least 1), a request for the normalized URL,
    without a [Range] header, gets that response from the store, with no
    fetch, whatever the network then does. *)
Theorem cached_response_is_served
    (evt : Request) (s : State) (resp : Response) (env' : Env) (evt' : Request) :
  NoDup (cache_keys (cache s)) ->
  1 <= sizeLimit ->
  opens env (opened s) = true ->
  cache_match (rq_url evt) (cache s) = None ->
  AudioCache.has (queue s) (removeQuery (rq_url evt)) = false ->
  net env (direct_request evt) = Fulfilled resp ->
  puts env (removeQuery (rq_url evt)) resp = None ->
  rq_url evt' = removeQuery (rq_url evt) ->
  headers_get "range" (rq_headers evt') = None ->
  opens env' (opened (snd (handleRequest evt s))) = true ->
  fst (AudioCache.handleRequest removeQuery toNumber env' sizeLimit evt'
         (snd (handleRequest evt s)))
  = Fulfilled resp
  /\ fetched (snd (AudioCache.handleRequest removeQuery toNumber env' sizeLimit evt'
                     (snd (handleRequest evt s))))
     = fetched (snd (handleRequest evt s)).
Proof.
  intros Hnd HL Hopen Hmiss Hq Hnet Hput Hurl Hrange Hopen'.
  destruct (handleRequest_success evt s resp Hnd Hopen Hmiss Hq Hnet Hput)
    as (_ & _ & _ & _ & Hfound).
  apply handleRequest_cached; [exact Hopen' | | exact Hrange].
  rewrite Hurl. apply Hfound. exact HL.
Qed.

End AudioControllerPaths.

(* ================================================================== *)
(** ** Network-first cache controller: further properties *)

Lemma evictCache_cache (sizeLimit : Z) (onDelete : option (string -> M unit))
    (st : State) :
  NoDup (cache_keys (cache st)) ->
  cache (snd (evictCache_ sizeLimit onDelete st))
  = skipn (evict_count (cache st) sizeLimit) (cache st).
Proof.
  intros Hnd. unfold evictCache_. rewrite evictCache_uniform by exact Hnd.
  reflexivity.
Qed.

Section NetworkFirstPaths.

Variable env : Env.
Variable cacheName : string.
Variable sizeLimit : Z.

Local Abbreviation handleRequest :=
  (NetworkFirstCache.handleRequest env cacheName sizeLimit true).

(** What the enabled controller does with a response of status 200 when the
    cache storage opens and the write succeeds. *)
Lemma networkFirst_success (evt : Request) (s : State) (resp : Response) :
  NoDup (cache_keys (cache s)) ->
  net env evt = Fulfilled resp ->
  rs_status resp = 200 ->
  opens env (opened s) = true ->
  puts env (rq_url evt) resp = None ->
  fst (handleRequest evt s) = Fulfilled (Some resp)
  /\ cache (snd (handleRequest evt s))
     = skipn (evict_count (cache_put (rq_url evt) resp (cache s)) sizeLimit)
         (cache_put (rq_url evt) resp (cache s)).
Proof.
  intros Hnd Hnet Hstatus Hopen Hput.
  unfold NetworkFirstCache.handleRequest. cbn [negb]. run_chain.
  rewrite Hnet. run_chain. rewrite Hstatus. cbn [Z.eqb Pos.eqb negb]. run_chain.
  rewrite Hopen. run_chain. rewrite Hput. run_chain.
  split; [reflexivity|]. cbn [cache fst snd].
  rewrite evictCache_cache by (cbn [cache]; apply cache_put_NoDup; exact Hnd).
  reflexivity.
Qed.

(** X28.  What the network-first controller stored is what it falls back
    on: after a request answered with status 200 and written to the store
    (store of distinct keys, limit at least 1), the same request, when its
    fetch fails, is answered with that response. *)
Theorem networkFirst_falls_back_on_stored
    (evt : Request) (s : State) (resp : Response) (env' : Env) :
  NoDup (cache_keys (cache s)) ->
  1 <= sizeLimit ->
  net env evt = Fulfilled resp ->
  rs_status resp = 200 ->
  opens env (opened s) = true ->
  puts env (rq_url evt) resp = None ->
  fetch_failed (net env' evt) = true ->
  opens env' (opened (snd (handleRequest evt s))) = true ->
  fst (handleRequest evt s) = Fulfilled (Some resp)
  /\ fst (NetworkFirstCache.handleRequest env' cacheName sizeLimit true evt
            (snd (handleRequest evt s)))
     = Fulfilled (Some resp).
Proof.
  intros Hnd HL Hnet Hstatus Hopen Hput Hfail Hopen'.
  destruct (networkFirst_success evt s resp Hnd Hnet Hstatus Hopen Hput) as [E1 E2].
  split; [exact E1|].
  rewrite (networkFirst_failure env' cacheName sizeLimit evt _ Hfail).
  rewrite Hopen', E2.
  replace (skipn (evict_count (cache_put (rq_url evt) resp (cache s)) sizeLimit)
             (cache_put (rq_url evt) resp (cache s)))
    with (fst (evictCache (cache_put (rq_url evt) resp (cache s)) sizeLimit
                 (@None (string -> unit -> unit)) tt))
    by (rewrite evictCache_uniform
          by (apply cache_put_NoDup; exact Hnd); reflexivity).
  rewrite (match_after_put_evict (rq_url evt) resp (cache s) sizeLimit
             (@None (string -> unit -> unit)) tt HL).
  reflexivity.
Qed.

(** X29.  When the cache storage does not open, a response of status 200 is
    not served: the failed [caches.open] lands in the [catch] of the chain,
    which answers from the store if a second [caches.open] succeeds and the
    store holds the request, and with the synthetic 555 response otherwise.
    The store is not written. *)
Theorem networkFirst_needs_the_store
    (evt : Request) (s : State) (resp : Response) :
  net env evt = Fulfilled resp ->
  rs_status resp = 200 ->
  opens env (opened s) = false ->
  exists synthetic,
    rs_status synthetic = 555
    /\ fst (handleRequest evt s)
       = Fulfilled
           (Some (if opens env (S (opened s))
                  then match cache_match (rq_url evt) (cache s) with
                       | Some cached => cached
                       | None => synthetic
                       end
                  else synthetic))
    /\ cache (snd (handleRequest evt s)) = cache s.
Proof.
  intros Hnet Hstatus Hopen.
  exists (network_error_response
            (DOMException "UnknownError" "cache storage unavailable")).
  split; [reflexivity|].
  unfold NetworkFirstCache.handleRequest. cbn [negb]. run_chain.
  rewrite Hnet. run_chain. rewrite Hstatus. cbn [Z.eqb Pos.eqb negb]. run_chain.
  rewrite Hopen. run_chain.
  destruct (opens env (S (opened s))); run_chain; [|split; reflexivity].
  destruct (cache_match (rq_url evt) (cache s)); split; reflexivity.
Qed.

(** X30.  A request whose fetch fails makes the network-first controller
    fetch once, the request as it came, and leaves the store as it is. *)
Theorem networkFirst_failure_frame (evt : Request) (s : State) :
  fetch_failed (net env evt) = true ->
  fetched (snd (handleRequest evt s)) = (fetched s ++ [(evt, None)])%list
  /\ cache (snd (handleRequest evt s)) = cache s.
Proof.
  intros Hfail. unfold NetworkFirstCache.handleRequest, fetch_failed in *.
  cbn [negb]. run_chain.
  destruct (net env evt) as [resp|e]; run_chain.
  - rewrite Hfail. run_chain.
    destruct (opens env (opened s)); run_chain; [|split; reflexivity].
    destruct (cache_match (rq_url evt) (cache s)); split; reflexivity.
  - destruct (opens env (opened s)); run_chain; [|split; reflexivity].
    destruct (cache_match (rq_url evt) (cache s)); split; reflexivity.
Qed.

End NetworkFirstPaths.

(* ================================================================== *)
(** ** The further properties at sample inputs *)

Lemma sample_cache_distinct : NoDup (cache_keys sample_cache).
Proof. repeat constructor; simpl; intuition discriminate. Defined.

Lemma empty_cache_distinct : NoDup (cache_keys (cache (state_of [] []))).
Proof. constructor. Defined.

Lemma handleRequest_hit_witness :
  opens env_offline (opened (state_of [] sample_cache)) = true
  /\ cache_match (rq_url ranged_evt) (cache (state_of [] sample_cache))
     = Some sample_resp
  /\ fst (AudioCache.handleRequest removeQuery_model toNumber_model env_offline 10
            ranged_evt (state_of [] sample_cache))
     = Fulfilled match buildResponse sample_resp
                         (headers_get "range" (rq_headers ranged_evt)) with
                 | Fulfilled out => out
                 | Rejected _ => cache_error_response
                 end
  /\ fetched (snd (AudioCache.handleRequest removeQuery_model toNumber_model
                     env_offline 10 ranged_evt (state_of [] sample_cache)))
     = fetched (state_of [] sample_cache)
  /\ queue (snd (AudioCache.handleRequest removeQuery_model toNumber_model
                   env_offline 10 ranged_evt (state_of [] sample_cache)))
     = queue (state_of [] sample_cache)
  /\ cache (snd (AudioCache.handleRequest removeQuery_model toNumber_model
                   env_offline 10 ranged_evt (state_of [] sample_cache)))
     = cache (state_of [] sample_cache)
  /\ sent (snd (AudioCache.handleRequest removeQuery_model toNumber_model
                  env_offline 10 ranged_evt (state_of [] sample_cache)))
     = sent (state_of [] sample_cache)
  /\ aborted (snd (AudioCache.handleRequest removeQuery_model toNumber_model
                     env_offline 10 ranged_evt (state_of [] sample_cache)))
     = aborted (state_of [] sample_cache).
Proof.
  do 2 (split; [reflexivity|]).
  exact (handleRequest_hit removeQuery_model toNumber_model env_offline 10
           ranged_evt (state_of [] sample_cache) sample_resp eq_refl eq_refl).
Defined.

Example handleRequest_hit_sample :
  fst (AudioCache.handleRequest removeQuery_model toNumber_model env_offline 10
         ranged_evt (state_of [] sample_cache))
  = Fulfilled (mkResponse 206
                 [("Content-Range", "bytes 1-3/5"); ("Content-Type", "audio/mpeg")]
                 [x01; x02; x03]%byte "").
Proof. reflexivity. Qed.

Lemma handleRequest_direct_fetch_witness :
  opens env_offline (opened (state_of sample_queue [])) = true
  /\ cache_match (rq_url sample_evt) (cache (state_of sample_queue [])) = None
  /\ AudioCache.has (queue (state_of sample_queue []))
       (removeQuery_model (rq_url sample_evt)) = false
  /\ fetched (snd (AudioCache.handleRequest removeQuery_model toNumber_model
                     env_offline 10 sample_evt (state_of sample_queue [])))
     = ([] ++ [(direct_request sample_evt, Some 0%nat)])%list
  /\ aborted (snd (AudioCache.handleRequest removeQuery_model toNumber_model
                     env_offline 10 sample_evt (state_of sample_queue [])))
     = ([] ++ map abort (filter marked_direct sample_queue))%list.
Proof.
  do 3 (split; [reflexivity|]).
  exact (handleRequest_direct_fetch removeQuery_model toNumber_model env_offline 10
           sample_evt (state_of sample_queue []) eq_refl eq_refl eq_refl).
Defined.

Example handleRequest_direct_fetch_sample :
  aborted (snd (AudioCache.handleRequest removeQuery_model toNumber_model
                  env_offline 10 sample_evt (state_of sample_queue [])))
  = [7%nat].
Proof. reflexivity. Qed.

Lemma handleRequest_caches_witness :
  NoDup (cache_keys (cache (state_of [] sample_cache)))
  /\ opens (env_answering network_resp) (opened (state_of [] sample_cache)) = true
  /\ cache_match (rq_url sample_evt) (cache (state_of [] sample_cache)) = None
  /\ AudioCache.has (queue (state_of [] sample_cache))
       (removeQuery_model (rq_url sample_evt)) = false
  /\ net (env_answering network_resp) (direct_request sample_evt)
     = Fulfilled network_resp
  /\ puts (env_answering network_resp) (removeQuery_model (rq_url sample_evt))
       network_resp = None
  /\ let key := removeQuery_model (rq_url sample_evt) in
     let stored := cache_put key network_resp (cache (state_of [] sample_cache)) in
     let k := evict_count stored 2 in
     let r := AudioCache.handleRequest removeQuery_model toNumber_model
                (env_answering network_resp) 2 sample_evt
                (state_of [] sample_cache) in
     fst r = Fulfilled network_resp
     /\ cache (snd r) = skipn k stored
     /\ sent (snd r)
        = (sent (state_of [] sample_cache)
             ++ mkCacheMessage ActualCached key (rs_url network_resp) None
             :: map deleted_message (List.rev (firstn k (cache_keys stored))))%list
     /\ queue (snd r) = queue (state_of [] sample_cache)
     /\ (1 <= 2 -> cache_match key (cache (snd r)) = Some network_resp).
Proof.
  split; [exact sample_cache_distinct|].
  do 5 (split; [reflexivity|]).
  exact (handleRequest_caches removeQuery_model toNumber_model
           (env_answering network_resp) 2 sample_evt (state_of [] sample_cache)
           network_resp sample_cache_distinct eq_refl eq_refl eq_refl eq_refl eq_refl).
Defined.

Example handleRequest_caches_sample :
  let r := AudioCache.handleRequest removeQuery_model toNumber_model
             (env_answering network_resp) 2 sample_evt (state_of [] sample_cache) in
  cache_keys (cache (snd r)) = ["http://h/c.mp3"; "http://h/a.mp3"]
  /\ map (fun m => (kind m, cachedUrl m)) (sent (snd r))
     = [(ActualCached, "http://h/a.mp3"); (Deleted, "http://h/b.mp3")].
Proof. split; reflexivity. Qed.

Lemma handleRequest_write_fails_witness :
  opens env_write_fails (opened (state_of [] [])) = true
  /\ cache_match (rq_url sample_evt) (cache (state_of [] [])) = None
  /\ AudioCache.has (queue (state_of [] [])) (removeQuery_model (rq_url sample_evt))
     = false
  /\ net env_write_fails (direct_request sample_evt) = Fulfilled network_resp
  /\ puts env_write_fails (removeQuery_model (rq_url sample_evt)) network_resp
     = Some (DOMException "QuotaExceededError" "quota exceeded")
  /\ fst (AudioCache.handleRequest removeQuery_model toNumber_model env_write_fails
            10 sample_evt (state_of [] []))
     = Fulfilled network_resp
  /\ cache (snd (AudioCache.handleRequest removeQuery_model toNumber_model
                   env_write_fails 10 sample_evt (state_of [] [])))
     = cache (state_of [] [])
  /\ sent (snd (AudioCache.handleRequest removeQuery_model toNumber_model
                  env_write_fails 10 sample_evt (state_of [] [])))
     = sent (state_of [] [])
  /\ queue (snd (AudioCache.handleRequest removeQuery_model toNumber_model
                   env_write_fails 10 sample_evt (state_of [] [])))
     = queue (state_of [] []).
Proof.
  do 5 (split; [reflexivity|]).
  exact (handleRequest_write_fails removeQuery_model toNumber_model env_write_fails
           10 sample_evt (state_of [] []) network_resp
           (DOMException "QuotaExceededError" "quota exceeded")
           eq_refl eq_refl eq_refl eq_refl eq_refl).
Defined.

Lemma handlePrefetch_caches_witness :
  NoDup (cache_keys (cache (state_of [] sample_cache)))
  /\ AudioCache.has (queue (state_of [] sample_cache))
       (removeQuery_model (pm_url sample_msg)) = false
  /\ net (env_answering network_resp) (prefetch_request sample_msg)
     = Fulfilled network_resp
  /\ rs_ok network_resp = true
  /\ opens (env_answering network_resp) (opened (state_of [] sample_cache)) = true
  /\ puts (env_answering network_resp) (removeQuery_model (pm_url sample_msg))
       network_resp = None
  /\ let key := removeQuery_model (pm_url sample_msg) in
     let stored := cache_put key network_resp (cache (state_of [] sample_cache)) in
     let k := evict_count stored 2 in
     let r := AudioCache.handlePrefetch removeQuery_model
                (env_answering network_resp) 2 sample_msg
                (state_of [] sample_cache) in
     fetched (snd r)
     = (fetched (state_of [] sample_cache)
          ++ [(prefetch_request sample_msg,
               Some (fresh (state_of [] sample_cache)))])%list
     /\ cache (snd r) = skipn k stored
     /\ sent (snd r)
        = (sent (state_of [] sample_cache)
             ++ mkCacheMessage PrefetchCached key (rs_url network_resp) None
             :: map deleted_message (List.rev (firstn k (cache_keys stored))))%list
     /\ queue (snd r) = queue (state_of [] sample_cache).
Proof.
  split; [exact sample_cache_distinct|].
  do 5 (split; [reflexivity|]).
  exact (handlePrefetch_caches removeQuery_model (env_answering network_resp) 2
           sample_msg (state_of [] sample_cache) network_resp
           sample_cache_distinct eq_refl eq_refl eq_refl eq_refl eq_refl).
Defined.

Lemma handlePrefetch_fails_witness :
  AudioCache.has (queue (state_of [] sample_cache))
    (removeQuery_model (pm_url sample_msg)) = false
  /\ prefetch_fails (env_answering not_found)
       (removeQuery_model (pm_url sample_msg)) sample_msg
       (state_of [] sample_cache) = true
  /\ (forall resp,
         net (env_answering not_found) (prefetch_request sample_msg)
         = Fulfilled resp ->
         0 <= rs_status resp <= 65535)
  /\ cache (snd (AudioCache.handlePrefetch removeQuery_model
                   (env_answering not_found) 10 sample_msg
                   (state_of [] sample_cache)))
     = cache (state_of [] sample_cache)
  /\ queue (snd (AudioCache.handlePrefetch removeQuery_model
                   (env_answering not_found) 10 sample_msg
                   (state_of [] sample_cache)))
     = queue (state_of [] sample_cache)
  /\ exists original cause,
       sent (snd (AudioCache.handlePrefetch removeQuery_model
                    (env_answering not_found) 10 sample_msg
                    (state_of [] sample_cache)))
       = (sent (state_of [] sample_cache)
            ++ [mkCacheMessage PrefetchError
                  (removeQuery_model (pm_url sample_msg)) original
                  (Some cause)])%list
       /\ original = rs_url not_found
       /\ cause = ErrorObject "Error" "Response status error code: 404".
Proof.
  assert (H : forall resp,
             net (env_answering not_found) (prefetch_request sample_msg)
             = Fulfilled resp ->
             0 <= rs_status resp <= 65535).
  { intros resp E. injection E as <-. cbn. lia. }
  do 2 (split; [reflexivity|]). split; [exact H|].
  exact (handlePrefetch_fails removeQuery_model (env_answering not_found) 10
           sample_msg (state_of [] sample_cache) eq_refl eq_refl H).
Defined.

Example handlePrefetch_fails_offline :
  sent (snd (AudioCache.handlePrefetch removeQuery_model env_offline 10 sample_msg
               (state_of [] sample_cache)))
  = [mkCacheMessage PrefetchError "http://h/a.mp3" "http://h/a.mp3?t=1"
       (Some (ErrorObject "TypeError" "Failed to fetch"))].
Proof. reflexivity. Qed.

Lemma handlers_keep_queue_unique_witness :
  NoDup (map url (queue (state_of sample_queue [])))
  /\ NoDup (map url (queue (snd (AudioCache.handleRequest removeQuery_model
                                   toNumber_model env_offline 10 sample_evt
                                   (state_of sample_queue [])))))
  /\ NoDup (map url (queue (snd (AudioCache.handlePrefetch removeQuery_model
                                   env_offline 10 sample_msg
                                   (state_of sample_queue []))))).
Proof.
  assert (H : NoDup (map url (queue (state_of sample_queue [])))).
  { repeat constructor; simpl; intuition discriminate. }
  split; [exact H|].
  exact (handlers_keep_queue_unique removeQuery_model toNumber_model env_offline 10
           sample_evt sample_msg (state_of sample_queue []) H).
Defined.

Lemma cached_response_is_served_witness :
  NoDup (cache_keys (cache (state_of [] [])))
  /\ 1 <= 1
  /\ opens (env_answering network_resp) (opened (state_of [] [])) = true
  /\ cache_match (rq_url sample_evt) (cache (state_of [] [])) = None
  /\ AudioCache.has (queue (state_of [] [])) (removeQuery_model (rq_url sample_evt))
     = false
  /\ net (env_answering network_resp) (direct_request sample_evt)
     = Fulfilled network_resp
  /\ puts (env_answering network_resp) (removeQuery_model (rq_url sample_evt))
       network_resp = None
  /\ rq_url (mkRequest "http://h/a.mp3" [] false)
     = removeQuery_model (rq_url sample_evt)
  /\ headers_get "range" (rq_headers (mkRequest "http://h/a.mp3" [] false)) = None
  /\ opens env_offline
       (opened (snd (AudioCache.handleRequest removeQuery_model toNumber_model
                       (env_answering network_resp) 1 sample_evt (state_of [] []))))
     = true
  /\ fst (AudioCache.handleRequest removeQuery_model toNumber_model env_offline 1
            (mkRequest "http://h/a.mp3" [] false)
            (snd (AudioCache.handleRequest removeQuery_model toNumber_model
                    (env_answering network_resp) 1 sample_evt (state_of [] []))))
     = Fulfilled network_resp
  /\ fetched (snd (AudioCache.handleRequest removeQuery_model toNumber_model
                     env_offline 1 (mkRequest "http://h/a.mp3" [] false)
                     (snd (AudioCache.handleRequest removeQuery_model toNumber_model
                             (env_answering network_resp) 1 sample_evt
                             (state_of [] [])))))
     = fetched (snd (AudioCache.handleRequest removeQuery_model toNumber_model
                       (env_answering network_resp) 1 sample_evt (state_of [] []))).
Proof.
  split; [exact empty_cache_distinct|]. split; [lia|].
  do 8 (split; [reflexivity|]).
  exact (cached_response_is_served removeQuery_model toNumber_model
           (env_answering network_resp) 1 sample_evt (state_of [] []) network_resp
           env_offline (mkRequest "http://h/a.mp3" [] false)
           empty_cache_distinct (Z.le_refl 1)
           eq_refl eq_refl eq_refl eq_refl eq_refl eq_refl eq_refl eq_refl).
Defined.

Lemma networkFirst_falls_back_on_stored_witness :
  NoDup (cache_keys (cache (state_of [] [])))
  /\ 1 <= 1000
  /\ net (env_answering network_resp) sample_evt = Fulfilled network_resp
  /\ rs_status network_resp = 200
  /\ opens (env_answering network_resp) (opened (state_of [] [])) = true
  /\ puts (env_answering network_resp) (rq_url sample_evt) network_resp = None
  /\ fetch_failed (net env_offline sample_evt) = true
  /\ opens env_offline
       (opened (snd (NetworkFirstCache.handleRequest (env_answering network_resp)
                       "api" 1000 true sample_evt (state_of [] []))))
     = true
  /\ fst (NetworkFirstCache.handleRequest (env_answering network_resp) "api" 1000
            true sample_evt (state_of [] []))
     = Fulfilled (Some network_resp)
  /\ fst (NetworkFirstCache.handleRequest env_offline "api" 1000 true sample_evt
            (snd (NetworkFirstCache.handleRequest (env_answering network_resp)
                    "api" 1000 true sample_evt (state_of [] []))))
     = Fulfilled (Some network_resp).
Proof.
  split; [exact empty_cache_distinct|]. split; [lia|].
  do 6 (split; [reflexivity|]).
  assert (HL : 1 <= 1000) by lia.
  exact (networkFirst_falls_back_on_stored (env_answering network_resp) "api" 1000
           sample_evt (state_of [] []) network_resp env_offline
           empty_cache_distinct HL eq_refl eq_refl eq_refl eq_refl eq_refl eq_refl).
Defined.

Lemma networkFirst_needs_the_store_witness :
  net env_no_storage sample_evt = Fulfilled network_resp
  /\ rs_status network_resp = 200
  /\ opens env_no_storage (opened (state_of [] [])) = false
  /\ exists synthetic,
       rs_status synthetic = 555
       /\ fst (NetworkFirstCache.handleRequest env_no_storage "api" 1000 true
                 sample_evt (state_of [] []))
          = Fulfilled
              (Some (if opens env_no_storage (S (opened (state_of [] [])))
                     then match cache_match (rq_url sample_evt)
                                  (cache (state_of [] [])) with
                          | Some cached => cached
                          | None => synthetic
                          end
                     else synthetic))
       /\ cache (snd (NetworkFirstCache.handleRequest env_no_storage "api" 1000 true
                        sample_evt (state_of [] [])))
          = cache (state_of [] []).
Proof.
  do 3 (split; [reflexivity|]).
  exact (networkFirst_needs_the_store env_no_storage "api" 1000 sample_evt
           (state_of [] []) network_resp eq_refl eq_refl eq_refl).
Defined.

Lemma networkFirst_failure_frame_witness :
  fetch_failed (net (env_answering not_found) sample_evt) = true
  /\ fetched (snd (NetworkFirstCache.handleRequest (env_answering not_found) "api"
                     1000 true sample_evt (state_of [] sample_cache)))
     = (fetched (state_of [] sample_cache) ++ [(sample_evt, None)])%list
  /\ cache (snd (NetworkFirstCache.handleRequest (env_answering not_found) "api"
                   1000 true sample_evt (state_of [] sample_cache)))
     = cache (state_of [] sample_cache).
Proof.
  split; [reflexivity|].
  exact (networkFirst_failure_frame (env_answering not_found) "api" 1000
           sample_evt (state_of [] sample_cache) eq_refl).
Defined.
